(** * Gastro-Galaxy-Back: the recipe service and its HTTP handlers

    A shallow embedding of the HTTP handlers of package [server]
    (internal/server/routes.go) and of the service of package [database] they
    call.  The store behind [database/sql] is a relational state: four tables,
    two identifier sequences and the outcomes the driver is going to report.
    Every method of the service is a function from a store to a result and a
    store; every handler is a function from a store and a request to the calls
    it makes on the response writer and on the service. *)

From Stdlib Require Import Ascii String ZArith.
From stdpp Require Import base strings list gmap pretty.

Local Open Scope Z_scope.

(** ** Errors

    Go's [error] values that the program can see.  What their [Error()] method
    prints is fixed by the libraries that build them, so the handlers take it
    as a function (see [Section Handlers]). *)

Inductive NumErrKind : Type :=
| ErrSyntax   (* strconv.ErrSyntax *)
| ErrRange.   (* strconv.ErrRange *)

Inductive error : Type :=
| ErrNoRows                                       (* sql.ErrNoRows *)
| ErrDriver (msg : string)                        (* any failure of the connection or the driver *)
| ErrForeignKey (constraint : string)             (* a violated reference, reported by the store *)
| ErrDeadlineExceeded                             (* context.DeadlineExceeded *)
| NumError (Func Num : string) (Err : NumErrKind) (* *strconv.NumError *)
| ErrJSON (msg : string)                          (* errors of encoding/json *)
| ErrRead (msg : string).                         (* errors of the request body reader *)

(** ** Package models *)

Module models.

(** Modelled from the spec: the declaration of [models.Recipe] (section 3);
    the fields are the ones the handlers and the service read and write,
    with the types of the service's signatures. *)
Record Recipe : Type := mkRecipe {
  Recipe_Id : Z;
  Recipe_Name : string;
  Recipe_Description : string;
  Recipe_LongDescription : string;
  Recipe_Url : string;
  Recipe_CategoryId : Z
}.

(** Modelled from the spec: see [Recipe]. *)
Record Ingedient : Type := mkIngedient {
  Ingedient_Id : Z;
  Ingedient_Name : string;
  Ingedient_Amount : string;
  Ingedient_Url : string;
  Ingedient_IsAvailable : bool
}.

(** Modelled from the spec: see [Recipe].  [IngedientIds] is a [[]int]; it is
    only ever ranged over, which a nil and an empty slice do alike. *)
Record RecipeInputDto : Type := mkRecipeInputDto {
  RecipeInputDto_Name : string;
  RecipeInputDto_Url : string;
  RecipeInputDto_CategoryId : Z;
  RecipeInputDto_Description : string;
  RecipeInputDto_LongDescription : string;
  RecipeInputDto_IngedientIds : list Z
}.

End models.
Import models.

(** ** Slices that reach the JSON encoder

    [var xs []T] is the nil slice, and [append] makes it a slice proper.  The
    two differ for [encoding/json], so the results of the queries keep the
    difference. *)

Inductive slice (A : Type) : Type :=
| nil_slice
| Slice (elems : list A).
Arguments nil_slice {A}.
Arguments Slice {A} elems.

Definition append {A : Type} (xs : slice A) (x : A) : slice A :=
  match xs with
  | nil_slice => Slice [x]
  | Slice l => Slice (l ++ [x])
  end.

Definition elements_of {A : Type} (xs : slice A) : list A :=
  match xs with
  | nil_slice => []
  | Slice l => l
  end.

Module models_dto.

(** Modelled from the spec: [models.RecipeWithIngredientsDto], built at the
    end of [GetRecipeWithIngredients]. *)
Record RecipeWithIngredientsDto : Type := mkRecipeWithIngredientsDto {
  Dto_Recipe : Recipe;
  Dto_Ingredients : slice Ingedient
}.

End models_dto.
Import models_dto.

(** ** The store *)

(** Modelled from the spec: a row of the [category] relation (section 6),
    which the program reads and never writes. *)
Record Category : Type := mkCategory {
  category_id : Z;
  category_name : string
}.

(** [sql.DBStats], the fields [Health] reads.  Durations are nanoseconds. *)
Record DBStats : Type := mkDBStats {
  OpenConnections : Z;
  InUse : Z;
  Idle : Z;
  WaitCount : Z;
  WaitDuration : Z;
  MaxIdleClosed : Z;
  MaxLifetimeClosed : Z
}.

(** The relational state behind [s.db].  Tables are lists: the join relation
    has no uniqueness constraint, so duplicates and order are part of the
    state.  [faults] lists what the driver will answer to the next
    interactions, oldest first: [None] lets the statement through, [Some e]
    fails it with [e]; once the list is used up nothing fails any more. *)
Record Store : Type := mkStore {
  recipe : list Recipe;
  ingredient : list Ingedient;
  ingredient_recipe : list (Z * Z);     (* (ingredient_id, recipe_id) *)
  category : list Category;
  recipe_id_seq : Z;
  ingredient_id_seq : Z;
  faults : list (option error);
  ping_latency : Z;                     (* how long a ping takes to answer *)
  stats : DBStats
}.

Definition with_faults (s : Store) (fs : list (option error)) : Store :=
  mkStore (recipe s) (ingredient s) (ingredient_recipe s) (category s)
          (recipe_id_seq s) (ingredient_id_seq s) fs (ping_latency s) (stats s).

Definition with_recipe (s : Store) (rs : list Recipe) : Store :=
  mkStore rs (ingredient s) (ingredient_recipe s) (category s)
          (recipe_id_seq s) (ingredient_id_seq s) (faults s) (ping_latency s) (stats s).

Definition with_ingredient (s : Store) (rows : list Ingedient) : Store :=
  mkStore (recipe s) rows (ingredient_recipe s) (category s)
          (recipe_id_seq s) (ingredient_id_seq s) (faults s) (ping_latency s) (stats s).

Definition with_ingredient_recipe (s : Store) (js : list (Z * Z)) : Store :=
  mkStore (recipe s) (ingredient s) js (category s)
          (recipe_id_seq s) (ingredient_id_seq s) (faults s) (ping_latency s) (stats s).

Definition with_recipe_id_seq (s : Store) (n : Z) : Store :=
  mkStore (recipe s) (ingredient s) (ingredient_recipe s) (category s)
          n (ingredient_id_seq s) (faults s) (ping_latency s) (stats s).

Definition with_ingredient_id_seq (s : Store) (n : Z) : Store :=
  mkStore (recipe s) (ingredient s) (ingredient_recipe s) (category s)
          (recipe_id_seq s) n (faults s) (ping_latency s) (stats s).

(** One interaction with the driver: take its next answer. *)
Definition driver (s : Store) : option error * Store :=
  match faults s with
  | [] => (None, s)
  | f :: fs => (f, with_faults s fs)
  end.

Definition has_category (s : Store) (id : Z) : bool :=
  existsb (fun c => category_id c =? id) (category s).

Definition has_recipe (s : Store) (id : Z) : bool :=
  existsb (fun r => Recipe_Id r =? id) (recipe s).

Definition has_ingredient (s : Store) (id : Z) : bool :=
  existsb (fun i => Ingedient_Id i =? id) (ingredient s).

(** Modelled from the spec: the schema of the [recipe] relation (section 6),
    whose [category_id] references [category.id]; the store refuses a row
    that names no category. *)
Definition recipe_row_accepted (s : Store) (categoryId : Z) : bool :=
  has_category s categoryId.

(** Modelled from the spec: the schema of the [ingredient_recipe] relation
    (section 6): both columns are foreign keys, and there is no uniqueness
    constraint, so a pair that is already there is accepted again. *)
Definition join_row_accepted (s : Store) (ingredientId recipeId : Z) : bool :=
  has_ingredient s ingredientId && has_recipe s recipeId.

(** *** The statements of the service, one function each *)

(** [INSERT INTO recipe (name, description, long_description, imageurl,
    category_id) VALUES($1,$2,$3,$4,$5) RETURNING id], run by
    [QueryRow(...).Scan(&id)].  The identifier is the next value of the
    relation's sequence. *)
Definition insert_recipe_returning_id (s : Store)
    (name description longDescription url : string) (categoryId : Z)
    : (Z + error) * Store :=
  match driver s with
  | (Some err, s1) => (inr err, s1)
  | (None, s1) =>
      if recipe_row_accepted s1 categoryId then
        let id := recipe_id_seq s1 in
        let row := mkRecipe id name description longDescription url categoryId in
        (inl id, with_recipe_id_seq (with_recipe s1 (recipe s1 ++ [row])) (id + 1))
      else (inr (ErrForeignKey "recipe.category_id"), s1)
  end.

(** [INSERT INTO ingredient_recipe (ingredient_id, recipe_id) VALUES($1,$2)],
    run by [Exec]. *)
Definition insert_ingredient_recipe (s : Store) (ingredientId recipeId : Z)
    : option error * Store :=
  match driver s with
  | (Some err, s1) => (Some err, s1)
  | (None, s1) =>
      if join_row_accepted s1 ingredientId recipeId then
        (None, with_ingredient_recipe s1 (ingredient_recipe s1 ++ [(ingredientId, recipeId)]))
      else (Some (ErrForeignKey "ingredient_recipe"), s1)
  end.

(** [INSERT INTO ingredient (name, amount, imageurl, isavailable)
    VALUES($1,$2,$3,$4) RETURNING id]. *)
Definition insert_ingredient_returning_id (s : Store)
    (name amount url : string) (isAvailable : bool) : (Z + error) * Store :=
  match driver s with
  | (Some err, s1) => (inr err, s1)
  | (None, s1) =>
      let id := ingredient_id_seq s1 in
      let row := mkIngedient id name amount url isAvailable in
      (inl id, with_ingredient_id_seq (with_ingredient s1 (ingredient s1 ++ [row])) (id + 1))
  end.

(** [UPDATE recipe SET name = $2, description = $3, imageurl = $4 WHERE id = $1]. *)
Definition update_row (id : Z) (name description url : string) (r : Recipe) : Recipe :=
  if Recipe_Id r =? id then
    mkRecipe (Recipe_Id r) name description (Recipe_LongDescription r) url (Recipe_CategoryId r)
  else r.

Definition update_recipe (s : Store) (id : Z) (name description url : string)
    : option error * Store :=
  match driver s with
  | (Some err, s1) => (Some err, s1)
  | (None, s1) => (None, with_recipe s1 (map (update_row id name description url) (recipe s1)))
  end.

(** The rows of [SELECT r.id, ... FROM recipe r], with or without
    [JOIN category c ON r.category_id = c.id WHERE c.name = $1].  SQL leaves
    the order open; rows come in table order here. *)
Definition select_recipes (s : Store) : list Recipe := recipe s.

Definition select_recipes_by_category (s : Store) (name : string) : list Recipe :=
  flat_map (fun r =>
    flat_map (fun c =>
      if (Recipe_CategoryId r =? category_id c) && bool_decide (category_name c = name)
      then [r] else []) (category s)) (recipe s).

(** The rows of [SELECT ... FROM recipe r WHERE r.id = $1]. *)
Definition select_recipe_by_id (s : Store) (recipeId : Z) : list Recipe :=
  filter (fun r => Recipe_Id r = recipeId) (recipe s).

(** The rows of [SELECT i.id, ... FROM ingredient i INNER JOIN
    ingredient_recipe ir ON i.id = ir.ingredient_id WHERE ir.recipe_id = $1]:
    one row for every pair of an ingredient and a join row that match. *)
Definition select_ingredients_of (s : Store) (recipeId : Z) : list Ingedient :=
  flat_map (fun i =>
    flat_map (fun ir =>
      if (Ingedient_Id i =? fst ir) && (snd ir =? recipeId) then [i] else [])
      (ingredient_recipe s)) (ingredient s).

(** [s.db.Query]: the statement fails as the driver says, or hands its rows. *)
Definition Query {A : Type} (s : Store) (rows : list A) : (list A + error) * Store :=
  match driver s with
  | (Some err, s1) => (inr err, s1)
  | (None, s1) => (inl rows, s1)
  end.

(** [rows.Err()] after the loop over [rows.Next()]: one more answer of the
    driver.  When it is an error the rows scanned so far are dropped by every
    caller, so how far the loop got is not recorded.  The columns hold plain
    values (section 3 of the spec), so [rows.Scan] does not fail. *)
Definition rows_Err (s : Store) : option error * Store := driver s.

(** [s.db.QueryRow(...).Scan(...)]: the first row, or [sql.ErrNoRows]. *)
Definition QueryRow {A : Type} (s : Store) (rows : list A) : (A + error) * Store :=
  match driver s with
  | (Some err, s1) => (inr err, s1)
  | (None, s1) =>
      match rows with
      | [] => (inr ErrNoRows, s1)
      | row :: _ => (inl row, s1)
      end
  end.

(** ** The service (package database) *)

(** [InsertRecipeIngredient]: one [Exec] per identifier, in the order of the
    slice; the first error ends the loop and is returned. *)
Fixpoint InsertRecipeIngredient (s : Store) (recipeId : Z) (ingredientIds : list Z)
    : option error * Store :=
  match ingredientIds with
  | [] => (None, s)
  | ingredientId :: rest =>
      match insert_ingredient_recipe s ingredientId recipeId with
      | (Some err, s1) => (Some err, s1)
      | (None, s1) => InsertRecipeIngredient s1 recipeId rest
      end
  end.

(** The [for _, ingredientId := range ingredientIds] loop that [InsertRecipe]
    has in its own body, before it calls [InsertRecipeIngredient]. *)
Fixpoint InsertRecipe_range (s : Store) (id : Z) (ingredientIds : list Z)
    : option error * Store :=
  match ingredientIds with
  | [] => (None, s)
  | ingredientId :: rest =>
      match insert_ingredient_recipe s ingredientId id with
      | (Some err, s1) => (Some err, s1)
      | (None, s1) => InsertRecipe_range s1 id rest
      end
  end.

Definition InsertRecipe (s : Store)
    (name description longDescription url : string) (categoryId : Z)
    (ingredientIds : list Z) : (Z * option error) * Store :=
  match insert_recipe_returning_id s name description longDescription url categoryId with
  | (inr err, s1) => ((-1, Some err), s1)
  | (inl id, s1) =>
      match InsertRecipe_range s1 id ingredientIds with
      | (Some err, s2) => ((id, Some err), s2)
      | (None, s2) =>
          match InsertRecipeIngredient s2 id ingredientIds with
          | (Some err, s3) => ((id, Some err), s3)
          | (None, s3) => ((id, None), s3)
          end
      end
  end.

(** The loop [for rows.Next() { ...; xs = append(xs, x) }] over the rows of
    a query, starting from [var xs []T]. *)
Definition scan_rows {A : Type} (rows : list A) : slice A :=
  fold_left append rows nil_slice.

Definition GetRecipes (s : Store) (category : string)
    : (slice Recipe * option error) * Store :=
  let '(rows, s1) :=
    if bool_decide (category <> "")
    then Query s (select_recipes_by_category s category)
    else Query s (select_recipes s) in
  match rows with
  | inr err => ((nil_slice, Some err), s1)
  | inl rows =>
      let recipes := scan_rows rows in
      match rows_Err s1 with
      | (Some err, s2) => ((nil_slice, Some err), s2)
      | (None, s2) => ((recipes, None), s2)
      end
  end.

(** A [nil] pointer result is [None]. *)
Definition GetRecipeWithIngredients (s : Store) (recipeId : Z)
    : (option RecipeWithIngredientsDto * option error) * Store :=
  match QueryRow s (select_recipe_by_id s recipeId) with
  | (inr err, s1) => ((None, Some err), s1)
  | (inl recipe, s1) =>
      match Query s1 (select_ingredients_of s1 recipeId) with
      | (inr err, s2) => ((None, Some err), s2)
      | (inl rows, s2) =>
          let ingredients := scan_rows rows in
          match rows_Err s2 with
          | (Some err, s3) => ((None, Some err), s3)
          | (None, s3) => ((Some (mkRecipeWithIngredientsDto recipe ingredients), None), s3)
          end
      end
  end.

Definition InsertIngredient (s : Store) (name amount url : string) (isAvailable : bool)
    : (Z * option error) * Store :=
  match insert_ingredient_returning_id s name amount url isAvailable with
  | (inr err, s1) => ((-1, Some err), s1)
  | (inl id, s1) => ((id, None), s1)
  end.

Definition UpdateRecipe (s : Store) (id : Z) (name description url : string)
    : option error * Store :=
  match update_recipe s id name description url with
  | (Some err, s1) => (Some err, s1)
  | (None, s1) => (None, s1)
  end.

Definition GetIngredients (s : Store) : (option (slice Ingedient) * option error) * Store :=
  match Query s (ingredient s) with
  | (inr err, s1) => ((None, Some err), s1)
  | (inl rows, s1) =>
      let ingredients := scan_rows rows in
      match rows_Err s1 with
      | (Some err, s2) => ((None, Some err), s2)
      | (None, s2) => ((Some ingredients, None), s2)
      end
  end.

(** ** Package strconv, as far as the program uses it *)

(** [strconv.Itoa] and [strconv.FormatInt(_, 10)]: decimal, with a minus sign. *)
Definition Itoa (i : Z) : string := pretty i.

Definition is_digit (c : ascii) : bool :=
  let n := N_of_ascii c in ((48 <=? n) && (n <=? 57))%N.

Definition digit_value (c : ascii) : Z := Z.of_N (N_of_ascii c) - 48.

(** The value of a run of decimal digits, [None] when another byte occurs. *)
Fixpoint parse_digits (s : string) (acc : Z) : option Z :=
  match s with
  | EmptyString => Some acc
  | String c rest =>
      if is_digit c then parse_digits rest (acc * 10 + digit_value c) else None
  end.

Definition maxInt : Z := 2 ^ 63 - 1.
Definition minInt : Z := - 2 ^ 63.

(** [strconv.Atoi] on a 64-bit platform: an optional sign, then at least one
    decimal digit and nothing else; a value outside [int] is a range error. *)
Definition Atoi (s : string) : Z + error :=
  let '(neg, digits) :=
    match s with
    | String "-" rest => (true, rest)
    | String "+" rest => (false, rest)
    | _ => (false, s)
    end in
  match digits with
  | EmptyString => inr (NumError "Atoi" s ErrSyntax)
  | _ =>
      match parse_digits digits 0 with
      | None => inr (NumError "Atoi" s ErrSyntax)
      | Some n =>
          let v := if neg then - n else n in
          if (minInt <=? v) && (v <=? maxInt) then inl v
          else inr (NumError "Atoi" s ErrRange)
      end
  end.

(** ** Health *)

Definition time_Second : Z := 1000000000.

(** [s.db.PingContext(ctx)] under a context that expires after [timeout]: the
    deadline passes when the store has not answered by then. *)
Definition PingContext (s : Store) (timeout : Z) : option error * Store :=
  if ping_latency s <? timeout then driver s else (Some ErrDeadlineExceeded, s).

(** What a call of [Health] ends in: the map it returns, or the end of the
    process in [log.Fatalf], with the format it was given and the map as it
    stood. *)
Inductive HealthResult : Type :=
| Health_returns (stats : gmap string string)
| Health_exits (format : string) (stats : gmap string string).

Section Health.

(** The [Error()] method of Go's [error] values, and [time.Duration]'s
    [String()]: library code the service only calls. *)
Variable Error : error -> string.
Variable Duration_String : Z -> string.

Definition Health_timeout : Z := 1 * time_Second.

Definition Health (s : Store) : HealthResult * Store :=
  let stats0 : gmap string string := ∅ in
  match PingContext s Health_timeout with
  | (Some err, s1) =>
      let stats1 := <["status" := "down"]> stats0 in
      let stats2 := <["error" := "db down: " +:+ Error err]> stats1 in
      (Health_exits ("db down: " +:+ Error err) stats2, s1)
  | (None, s1) =>
      let stats1 := <["status" := "up"]> stats0 in
      let stats2 := <["message" := "It's healthy"]> stats1 in
      let dbStats := stats s1 in
      let stats3 := <["open_connections" := Itoa (OpenConnections dbStats)]> stats2 in
      let stats4 := <["in_use" := Itoa (InUse dbStats)]> stats3 in
      let stats5 := <["idle" := Itoa (Idle dbStats)]> stats4 in
      let stats6 := <["wait_count" := Itoa (WaitCount dbStats)]> stats5 in
      let stats7 := <["wait_duration" := Duration_String (WaitDuration dbStats)]> stats6 in
      let stats8 := <["max_idle_closed" := Itoa (MaxIdleClosed dbStats)]> stats7 in
      let stats9 := <["max_lifetime_closed" := Itoa (MaxLifetimeClosed dbStats)]> stats8 in
      let stats10 :=
        if 40 <? OpenConnections dbStats
        then <["message" := "The database is experiencing heavy load."]> stats9
        else stats9 in
      let stats11 :=
        if 1000 <? WaitCount dbStats
        then <["message" := "The database has a high number of wait events, indicating potential bottlenecks."]> stats10
        else stats10 in
      let stats12 :=
        if OpenConnections dbStats `quot` 2 <? MaxIdleClosed dbStats
        then <["message" := "Many idle connections are being closed, consider revising the connection pool settings."]> stats11
        else stats11 in
      let stats13 :=
        if OpenConnections dbStats `quot` 2 <? MaxLifetimeClosed dbStats
        then <["message" := "Many connections are being closed due to max lifetime, consider increasing max lifetime or revising the connection usage pattern."]> stats12
        else stats12 in
      (Health_returns stats13, s1)
  end.

End Health.

(** ** The HTTP handlers (package server) *)

(** [r.Body]: the bytes the client sent and the error, if any, that ends the
    stream instead of a clean end of file. *)
Record Reader : Type := mkReader {
  reader_data : string;
  reader_err : option error
}.

Record Request : Type := mkRequest {
  Body : Reader;
  PathValue : string -> string
}.

Definition io_ReadAll (rd : Reader) : string * option error :=
  (reader_data rd, reader_err rd).

(** The values [encoding/json] stores in an [interface{}]; a number is a
    [float64], kept as its bit pattern. *)
#[warnings="-register-all"]
Inductive any : Type :=
| any_nil
| any_bool (b : bool)
| any_float64 (bits : Z)
| any_string (s : string)
| any_slice (elems : list any)
| any_map (fields : list (string * any)).

(** [data[key]] on a [map[string]interface{}]: the zero value, the nil
    interface, when the key is missing (or the map is nil). *)
Definition map_index (data : gmap string any) (key : string) : any :=
  default any_nil (data !! key).

(** [v.(string)], the one-result form: [None] is the run-time panic. *)
Definition assert_string (v : any) : option string :=
  match v with
  | any_string s => Some s
  | _ => None
  end.

Definition StatusOK : Z := 200.
Definition StatusCreated : Z := 201.
Definition StatusBadRequest : Z := 400.
Definition StatusInternalServerError : Z := 500.

(** The calls a handler makes on the service. *)
Inductive DbCall : Type :=
| Call_InsertRecipe (name description longDescription url : string)
                    (categoryId : Z) (ingredientIds : list Z)
| Call_InsertIngredient (name amount url : string) (isAvailable : bool)
| Call_GetRecipes (category : string)
| Call_GetRecipeWithIngredients (recipeId : Z).

(** What a handler does, in program order: its calls on the response writer
    [w], the library call [http.Error(w, msg, code)], and its calls on
    [s.db]. *)
Inductive Event : Type :=
| Header_Set (key value : string)
| WriteHeader (code : Z)
| Write (data : string)
| http_Error (msg : string) (code : Z)
| Db (call : DbCall).

Inductive Outcome : Type :=
| Returned
| Panicked.

Record Handled : Type := mkHandled {
  events : list Event;
  outcome : Outcome;
  db : Store
}.

Definition newline : string := String "010" EmptyString.

(** [json.Marshal] of a slice: [null] for the nil slice, else the elements
    between brackets. *)
Definition Marshal_slice {A : Type} (marshal : A -> string) (xs : slice A) : string :=
  match xs with
  | nil_slice => "null"
  | Slice l => "[" +:+ String.concat "," (map marshal l) +:+ "]"
  end.

Definition zero_RecipeInputDto : RecipeInputDto := mkRecipeInputDto "" "" 0 "" "" [].
Definition zero_Ingedient : Ingedient := mkIngedient 0 "" "" "" false.

Section Handlers.

(** Library code the handlers call.  [Error] is the [Error()] method.
    [json_readValue] is the first step of [Decode] of a [json.Decoder]: it reads
    one JSON value off the stream and checks its syntax; only then does the
    decoder fill the target, which [json_unmarshal_RecipeInputDto] and
    [json_unmarshal_Ingedient] do (they may still report a value of the
    wrong type).  [json_Unmarshal_map] is [json.Unmarshal] into a
    [map[string]interface{}].  The [json_Marshal_] functions encode the
    structs of package [models] under their field tags. *)
Variable Error : error -> string.
Variable json_readValue : Reader -> string + error.
Variable json_unmarshal_RecipeInputDto : string -> RecipeInputDto -> RecipeInputDto * option error.
Variable json_unmarshal_Ingedient : string -> Ingedient -> Ingedient * option error.
Variable json_Unmarshal_map : string -> gmap string any + error.
Variable json_Marshal_Recipe : Recipe -> string.
Variable json_Marshal_RecipeWithIngredientsDto : RecipeWithIngredientsDto -> string.

Definition Decode_RecipeInputDto (rd : Reader) (v : RecipeInputDto)
    : RecipeInputDto * option error :=
  match json_readValue rd with
  | inr err => (v, Some err)
  | inl value => json_unmarshal_RecipeInputDto value v
  end.

Definition Decode_Ingedient (rd : Reader) (v : Ingedient) : Ingedient * option error :=
  match json_readValue rd with
  | inr err => (v, Some err)
  | inl value => json_unmarshal_Ingedient value v
  end.

(** [json.NewEncoder(w).Encode(v)]: the encoding and a newline, in one write. *)
Definition Encode (encoding : string) : Event := Write (encoding +:+ newline).

Definition insertRecipeHandler (s : Store) (r : Request) : Handled :=
  let '(recipeDto, err) := Decode_RecipeInputDto (Body r) zero_RecipeInputDto in
  let w1 :=
    match err with
    | Some err => [http_Error (Error err) StatusBadRequest]
    | None => []
    end in
  let recipe :=
    mkRecipe 0 (RecipeInputDto_Name recipeDto) (RecipeInputDto_Description recipeDto)
             (RecipeInputDto_LongDescription recipeDto) (RecipeInputDto_Url recipeDto)
             (RecipeInputDto_CategoryId recipeDto) in
  let '((id, err), s1) :=
    InsertRecipe s (Recipe_Name recipe) (Recipe_Description recipe)
                 (Recipe_LongDescription recipe) (Recipe_Url recipe)
                 (Recipe_CategoryId recipe) (RecipeInputDto_IngedientIds recipeDto) in
  let w2 :=
    w1 ++ [Db (Call_InsertRecipe (Recipe_Name recipe) (Recipe_Description recipe)
                 (Recipe_LongDescription recipe) (Recipe_Url recipe)
                 (Recipe_CategoryId recipe) (RecipeInputDto_IngedientIds recipeDto))] in
  let w3 :=
    match err with
    | Some err => w2 ++ [http_Error (Error err) StatusInternalServerError]
    | None => w2
    end in
  mkHandled (w3 ++ [WriteHeader StatusCreated; Write ("Recipe id: " +:+ Itoa id)])
            Returned s1.

Definition getRecipesHandler (s : Store) (r : Request) : Handled :=
  let '(body, err) := io_ReadAll (Body r) in
  match err with
  | Some err => mkHandled [http_Error (Error err) StatusBadRequest] Returned s
  | None =>
      let decoded : (option string) + error :=
        if bool_decide (0 < String.length body)%nat then
          match json_Unmarshal_map body with
          | inr err => inr err
          | inl data => inl (assert_string (map_index data "category"))
          end
        else inl (Some "") in
      match decoded with
      | inr err => mkHandled [http_Error (Error err) StatusBadRequest] Returned s
      | inl None => mkHandled [] Panicked s
      | inl (Some category) =>
          let '((recipes, err), s1) := GetRecipes s category in
          let w1 := [Db (Call_GetRecipes category)] in
          match err with
          | Some err =>
              mkHandled (w1 ++ [http_Error (Error err) StatusBadRequest]) Returned s1
          | None =>
              mkHandled (w1 ++ [Header_Set "Content-Type" "application/json";
                                WriteHeader StatusOK;
                                Encode (Marshal_slice json_Marshal_Recipe recipes)])
                        Returned s1
          end
      end
  end.

Definition getRecipeWithIngredients (s : Store) (r : Request) : Handled :=
  match Atoi (PathValue r "recipeId") with
  | inr err => mkHandled [http_Error (Error err) StatusBadRequest] Returned s
  | inl recipeId =>
      let '((recipe, err), s1) := GetRecipeWithIngredients s recipeId in
      let w1 := [Db (Call_GetRecipeWithIngredients recipeId)] in
      match err, recipe with
      | Some err, _ =>
          mkHandled (w1 ++ [http_Error (Error err) StatusBadRequest]) Returned s1
      | None, Some recipe =>
          mkHandled (w1 ++ [Header_Set "Content-Type" "application/json";
                            WriteHeader StatusOK;
                            Encode (json_Marshal_RecipeWithIngredientsDto recipe)])
                    Returned s1
      | None, None =>
          mkHandled (w1 ++ [Header_Set "Content-Type" "application/json";
                            WriteHeader StatusOK;
                            Encode "null"])
                    Returned s1
      end
  end.

Definition insertIngredientHandler (s : Store) (r : Request) : Handled :=
  let '(ingredient, err) := Decode_Ingedient (Body r) zero_Ingedient in
  let w1 :=
    match err with
    | Some err => [http_Error (Error err) StatusBadRequest]
    | None => []
    end in
  let '((id, err), s1) :=
    InsertIngredient s (Ingedient_Name ingredient) (Ingedient_Amount ingredient)
                     (Ingedient_Url ingredient) (Ingedient_IsAvailable ingredient) in
  let w2 :=
    w1 ++ [Db (Call_InsertIngredient (Ingedient_Name ingredient) (Ingedient_Amount ingredient)
                 (Ingedient_Url ingredient) (Ingedient_IsAvailable ingredient))] in
  let w3 :=
    match err with
    | Some err => w2 ++ [http_Error (Error err) StatusInternalServerError]
    | None => w2
    end in
  mkHandled (w3 ++ [WriteHeader StatusCreated; Write ("Ingredient id: " +:+ Itoa id)])
            Returned s1.

End Handlers.

(** ** What a client sees of a handler's calls

    [net/http] sends the status line at the first [WriteHeader]; a later one
    changes nothing.  A [Write] before any [WriteHeader] sends 200 first.
    [http.Error] is a [WriteHeader] followed by the message and a newline. *)
Fixpoint status_written (evs : list Event) : option Z :=
  match evs with
  | [] => None
  | WriteHeader code :: _ => Some code
  | http_Error _ code :: _ => Some code
  | Write _ :: _ => Some StatusOK
  | _ :: rest => status_written rest
  end.

Fixpoint body_written (evs : list Event) : string :=
  match evs with
  | [] => ""
  | Write data :: rest => data +:+ body_written rest
  | http_Error msg _ :: rest => msg +:+ newline +:+ body_written rest
  | _ :: rest => body_written rest
  end.

Definition is_db_call (ev : Event) : bool :=
  match ev with
  | Db _ => true
  | _ => false
  end.

(** ** Vocabulary of the statements below *)

(** The join rows that associate [ingredientIds], in order, with a recipe. *)
Definition join_rows (recipeId : Z) (ingredientIds : list Z) : list (Z * Z) :=
  map (fun ingredientId => (ingredientId, recipeId)) ingredientIds.

(** The rows of the query [GetRecipes] sends for a category name. *)
Definition matching_recipes (s : Store) (category : string) : list Recipe :=
  if bool_decide (category <> "") then select_recipes_by_category s category
  else select_recipes s.

(** What the driver answers next. *)
Definition next_fault (s : Store) : option error := fst (driver s).

(** The number of join rows that link an ingredient to a recipe. *)
Definition count_join_rows (s : Store) (ingredientId recipeId : Z) : nat :=
  length (filter (fun ir => ir = (ingredientId, recipeId)) (ingredient_recipe s)).

(** ** Concrete stores and requests *)

Definition no_stats : DBStats := mkDBStats 1 0 1 0 0 0 0.

Definition salt : Ingedient := mkIngedient 1 "Salt" "1 tsp" "" true.
Definition egg : Ingedient := mkIngedient 2 "Egg" "2" "" true.

(** A store with one category, two ingredients and no recipe yet. *)
Definition pantry : Store :=
  mkStore [] [salt; egg] [] [mkCategory 1 "Dessert"] 1 3 [] 0 no_stats.

(** [pantry] with a connection that fails at the next statement. *)
Definition pantry_offline : Store :=
  with_faults pantry [Some (ErrDriver "connection refused")].

(** [pantry] behind a link on which a ping takes two seconds. *)
Definition pantry_slow : Store :=
  mkStore [] [salt; egg] [] [mkCategory 1 "Dessert"] 1 3 [] (2 * time_Second) no_stats.

(** [pantry] after a recipe in another category was stored. *)
Definition kitchen : Store :=
  mkStore [mkRecipe 1 "Soup" "hot" "very hot" "soup.png" 2]
          [salt; egg] [(1, 1)]
          [mkCategory 1 "Dessert"; mkCategory 2 "Starter"] 2 3 [] 0 no_stats.

Definition quote : string := String "034" EmptyString.

(** The body [{"category":"Dessert"}]. *)
Definition dessert_body : string :=
  "{" +:+ quote +:+ "category" +:+ quote +:+ ":" +:+ quote +:+ "Dessert" +:+ quote +:+ "}".

(** The body [{"category":7}]. *)
Definition number_body : string :=
  "{" +:+ quote +:+ "category" +:+ quote +:+ ":7}".

Definition request (body : string) (recipeId : string) : Request :=
  mkRequest (mkReader body None) (fun name => if bool_decide (name = "recipeId") then recipeId else "").

(** Stand-ins for the library functions on the bodies above: enough of
    [encoding/json] to run the handlers on them. *)
Definition sample_Error (err : error) : string :=
  match err with
  | ErrNoRows => "sql: no rows in result set"
  | ErrDriver msg => msg
  | ErrForeignKey constraint => "violates foreign key constraint " +:+ constraint
  | ErrDeadlineExceeded => "context deadline exceeded"
  | NumError fn num ErrSyntax => "strconv." +:+ fn +:+ ": parsing " +:+ quote +:+ num +:+ quote +:+ ": invalid syntax"
  | NumError fn num ErrRange => "strconv." +:+ fn +:+ ": parsing " +:+ quote +:+ num +:+ quote +:+ ": value out of range"
  | ErrJSON msg => msg
  | ErrRead msg => msg
  end.

Definition sample_Unmarshal_map (body : string) : gmap string any + error :=
  if bool_decide (body = dessert_body) then inl {[ "category" := any_string "Dessert" ]}
  else if bool_decide (body = number_body) then inl {[ "category" := any_float64 4619567317775286272 ]}
  else if bool_decide (body = "{}") then inl ∅
  else inr (ErrJSON "invalid character").

Definition sample_readValue (rd : Reader) : string + error :=
  match reader_err rd with
  | Some err => inr err
  | None =>
      if bool_decide (reader_data rd = "{") then inr (ErrJSON "unexpected EOF")
      else inl (reader_data rd)
  end.

Definition sample_unmarshal_RecipeInputDto (value : string) (v : RecipeInputDto)
    : RecipeInputDto * option error := (v, None).

Definition sample_unmarshal_Ingedient (value : string) (v : Ingedient)
    : Ingedient * option error := (v, None).

Definition sample_Marshal_Recipe (r : Recipe) : string :=
  "{" +:+ quote +:+ "id" +:+ quote +:+ ":" +:+ Itoa (Recipe_Id r) +:+ "}".

Definition sample_Duration_String (d : Z) : string := Itoa d +:+ "ns".


(** ** The handlers that take no input *)

(** How serving a request ends: the handler came back, or the process was
    ended by [log.Fatalf] with that format, before anything was written. *)
Inductive Served : Type :=
| Responds (h : Handled)
| Exits (format : string).

Section PlainHandlers.

(** [json.Marshal] of a [map[string]string]: the encoding and the error. *)
Variable Error : error -> string.
Variable Duration_String : Z -> string.
Variable json_Marshal_map : gmap string string -> string * option error.

Definition HelloWorldHandler (s : Store) (r : Request) : Served :=
  let resp : gmap string string := <["message" := "Hello World"]> ∅ in
  let '(jsonResp, err) := json_Marshal_map resp in
  match err with
  | Some err => Exits ("error handling JSON marshal. Err: %v")
  | None => Responds (mkHandled [Write jsonResp] Returned s)
  end.

Definition healthHandler (s : Store) (r : Request) : Served :=
  match Health Error Duration_String s with
  | (Health_exits format _, _) => Exits format
  | (Health_returns stats, s1) =>
      let '(jsonResp, _) := json_Marshal_map stats in
      Responds (mkHandled [Write jsonResp] Returned s1)
  end.

End PlainHandlers.

(** ** Integrity of a store *)

(** Two stores with the same rows and sequences; only what the driver has
    left to answer may differ. *)
Definition same_data (s s' : Store) : Prop :=
  recipe s' = recipe s /\
  ingredient s' = ingredient s /\
  ingredient_recipe s' = ingredient_recipe s /\
  category s' = category s /\
  recipe_id_seq s' = recipe_id_seq s /\
  ingredient_id_seq s' = ingredient_id_seq s.

(** The state of a store that only ever changed through its schema: the
    generated identifiers are positive, below their sequence and distinct, and
    every reference resolves. *)
Definition wf_store (s : Store) : Prop :=
  0 < recipe_id_seq s /\
  0 < ingredient_id_seq s /\
  Forall (fun r => 0 < Recipe_Id r < recipe_id_seq s) (recipe s) /\
  Forall (fun i => 0 < Ingedient_Id i < ingredient_id_seq s) (ingredient s) /\
  NoDup (map Recipe_Id (recipe s)) /\
  NoDup (map Ingedient_Id (ingredient s)) /\
  Forall (fun ir => has_ingredient s (fst ir) = true /\ has_recipe s (snd ir) = true)
         (ingredient_recipe s) /\
  Forall (fun r => has_category s (Recipe_CategoryId r) = true) (recipe s).

#[global] Instance wf_store_dec (s : Store) : Decision (wf_store s).
Proof. unfold wf_store. apply _. Defined.

(** The message [Health] reports, by the last of its four checks that holds. *)
Definition Health_message (dbStats : DBStats) : string :=
  if OpenConnections dbStats `quot` 2 <? MaxLifetimeClosed dbStats
  then "Many connections are being closed due to max lifetime, consider increasing max lifetime or revising the connection usage pattern."
  else if OpenConnections dbStats `quot` 2 <? MaxIdleClosed dbStats
  then "Many idle connections are being closed, consider revising the connection pool settings."
  else if 1000 <? WaitCount dbStats
  then "The database has a high number of wait events, indicating potential bottlenecks."
  else if 40 <? OpenConnections dbStats
  then "The database is experiencing heavy load."
  else "It's healthy".

(** [kitchen] with a connection that fails at the next statement. *)
Definition kitchen_offline : Store :=
  with_faults kitchen [Some (ErrDriver "connection refused")].

(** A pool under load: 60 connections open, 45 of them closed for idling. *)
Definition busy_stats : DBStats := mkDBStats 60 50 10 2000 0 45 3.

Definition kitchen_busy : Store :=
  mkStore (recipe kitchen) (ingredient kitchen) (ingredient_recipe kitchen) (category kitchen)
          2 3 [] 0 busy_stats.

Definition sample_Marshal_map (m : gmap string string) : string * option error :=
  (String.concat "," (map (fun kv => fst kv +:+ "=" +:+ snd kv) (map_to_list m)), None).

(** The body [{"name":"Cake","categoryId":1,"ingredientIds":[1,2]}], by what
    the stand-in decoder makes of it. *)
Definition cake_body : string := "cake".
Definition cake_dto : RecipeInputDto :=
  mkRecipeInputDto "Cake" "cake.png" 1 "sweet" "very sweet" [1; 2].

Definition sample_unmarshal_cake (value : string) (v : RecipeInputDto)
    : RecipeInputDto * option error :=
  if bool_decide (value = cake_body) then (cake_dto, None) else (v, None).

Definition sugar : Ingedient := mkIngedient 0 "Sugar" "1 cup" "" true.

Definition sample_unmarshal_sugar (value : string) (v : Ingedient)
    : Ingedient * option error := (sugar, None).

(** The rows of the ingredient query of [GetRecipeWithIngredients], from the
    two relations it joins. *)
Definition ingredients_joined (ings : list Ingedient) (rows : list (Z * Z)) (recipeId : Z)
    : list Ingedient :=
  flat_map (fun i =>
    flat_map (fun ir =>
      if (Ingedient_Id i =? fst ir) && (snd ir =? recipeId) then [i] else []) rows) ings.
(** * Properties *)

(** ** The driver and the statements *)

Lemma driver_tables s :
  recipe (snd (driver s)) = recipe s /\
  ingredient (snd (driver s)) = ingredient s /\
  ingredient_recipe (snd (driver s)) = ingredient_recipe s /\
  category (snd (driver s)) = category s /\
  recipe_id_seq (snd (driver s)) = recipe_id_seq s /\
  ingredient_id_seq (snd (driver s)) = ingredient_id_seq s.
Proof. unfold driver. destruct (faults s); simpl; auto 10. Qed.

Lemma driver_quiet s : faults s = [] -> driver s = (None, s).
Proof. unfold driver. intros ->. reflexivity. Qed.

Lemma insert_ingredient_recipe_ok s ingredientId recipeId s1 :
  insert_ingredient_recipe s ingredientId recipeId = (None, s1) ->
  ingredient_recipe s1 = ingredient_recipe s ++ [(ingredientId, recipeId)] /\
  recipe s1 = recipe s /\ ingredient s1 = ingredient s /\ category s1 = category s /\
  recipe_id_seq s1 = recipe_id_seq s.
Proof.
  unfold insert_ingredient_recipe.
  pose proof (driver_tables s) as (Hr & Hi & Hj & Hc & Hq & _).
  destruct (driver s) as [[err|] s0]; simpl in *; [discriminate|].
  destruct (join_row_accepted s0 ingredientId recipeId); [|discriminate].
  intros [= <-]. simpl. rewrite Hj. auto.
Qed.

Lemma insert_ingredient_recipe_err s ingredientId recipeId err s1 :
  insert_ingredient_recipe s ingredientId recipeId = (Some err, s1) ->
  ingredient_recipe s1 = ingredient_recipe s /\
  recipe s1 = recipe s /\ ingredient s1 = ingredient s /\ category s1 = category s /\
  recipe_id_seq s1 = recipe_id_seq s.
Proof.
  unfold insert_ingredient_recipe.
  pose proof (driver_tables s) as (Hr & Hi & Hj & Hc & Hq & _).
  destruct (driver s) as [[err0|] s0]; simpl in *.
  - intros [= <- <-]. auto.
  - destruct (join_row_accepted s0 ingredientId recipeId); [discriminate|].
    intros [= <- <-]. auto.
Qed.

(** The loop in the body of [InsertRecipe] is the loop of
    [InsertRecipeIngredient]. *)
Lemma InsertRecipe_range_eq ingredientIds : forall s id,
  InsertRecipe_range s id ingredientIds = InsertRecipeIngredient s id ingredientIds.
Proof.
  induction ingredientIds as [|i rest IH]; intros s id; simpl; [reflexivity|].
  destruct (insert_ingredient_recipe s i id) as [[err|] s1]; auto.
Qed.

Lemma InsertRecipeIngredient_frame ingredientIds : forall s recipeId res s1,
  InsertRecipeIngredient s recipeId ingredientIds = (res, s1) ->
  recipe s1 = recipe s /\ ingredient s1 = ingredient s /\ category s1 = category s /\
  recipe_id_seq s1 = recipe_id_seq s.
Proof.
  induction ingredientIds as [|i rest IH]; intros s recipeId res s1; simpl.
  - intros [= <- <-]. auto.
  - destruct (insert_ingredient_recipe s i recipeId) as [[err|] s0] eqn:Hins.
    + intros [= <- <-]. apply insert_ingredient_recipe_err in Hins. tauto.
    + intros H. apply IH in H. apply insert_ingredient_recipe_ok in Hins.
      destruct H as (-> & -> & -> & ->). tauto.
Qed.

(** C8. [InsertRecipeIngredient] adds the join rows of the identifiers in the
    order of the list.  When it returns no error, every identifier got its
    row.  When it returns an error, the list splits into the identifiers
    before the failing one, the failing one and the rest: the rows of the
    former are in the relation, the error is the one the failing insert
    reported, and neither that identifier nor a later one got a row. *)
Theorem InsertRecipeIngredient_rows (s : Store) (recipeId : Z) (ingredientIds : list Z) :
  match InsertRecipeIngredient s recipeId ingredientIds with
  | (None, s') =>
      ingredient_recipe s' = ingredient_recipe s ++ join_rows recipeId ingredientIds
  | (Some err, s') =>
      exists done ingredientId rest s1,
        ingredientIds = done ++ ingredientId :: rest /\
        InsertRecipeIngredient s recipeId done = (None, s1) /\
        insert_ingredient_recipe s1 ingredientId recipeId = (Some err, s') /\
        ingredient_recipe s' = ingredient_recipe s ++ join_rows recipeId done
  end.
Proof.
  revert s. induction ingredientIds as [|i rest IH]; intros s; simpl.
  - rewrite app_nil_r. reflexivity.
  - destruct (insert_ingredient_recipe s i recipeId) as [[err|] s0] eqn:Hins.
    + exists [], i, rest, s. simpl. rewrite app_nil_r.
      pose proof (insert_ingredient_recipe_err _ _ _ _ _ Hins) as (Hrows & _).
      repeat split; auto.
    + specialize (IH s0).
      pose proof (insert_ingredient_recipe_ok _ _ _ _ Hins) as (Hrows & _).
      destruct (InsertRecipeIngredient s0 recipeId rest) as [[err|] s'].
      * destruct IH as (done & j & rest' & s1 & -> & Hdone & Hfail & Hjoin).
        exists (i :: done), j, rest', s1. simpl. rewrite Hins.
        repeat split; auto. rewrite Hjoin, Hrows, <- app_assoc. reflexivity.
      * rewrite IH, Hrows, <- app_assoc. reflexivity.
Qed.

Lemma InsertRecipeIngredient_ok_rows ingredientIds : forall s recipeId s1,
  InsertRecipeIngredient s recipeId ingredientIds = (None, s1) ->
  ingredient_recipe s1 = ingredient_recipe s ++ join_rows recipeId ingredientIds.
Proof.
  induction ingredientIds as [|i rest IH]; intros s recipeId s1; simpl.
  - intros [= <-]. rewrite app_nil_r. reflexivity.
  - destruct (insert_ingredient_recipe s i recipeId) as [[err|] s0] eqn:Hins; [discriminate|].
    intros H. apply IH in H. apply insert_ingredient_recipe_ok in Hins as (Hrows & _).
    rewrite H, Hrows, <- app_assoc. reflexivity.
Qed.

Lemma insert_recipe_returning_id_ok s name description longDescription url categoryId id s1 :
  insert_recipe_returning_id s name description longDescription url categoryId = (inl id, s1) ->
  id = recipe_id_seq s /\
  recipe s1 = recipe s ++ [mkRecipe id name description longDescription url categoryId] /\
  ingredient_recipe s1 = ingredient_recipe s /\
  ingredient s1 = ingredient s.
Proof.
  unfold insert_recipe_returning_id.
  pose proof (driver_tables s) as (Hr & Hi & Hj & Hc & Hq & _).
  destruct (driver s) as [[err|] s0]; simpl in *; [discriminate|].
  destruct (recipe_row_accepted s0 categoryId); [|discriminate].
  intros [= <- <-]. simpl. rewrite Hr, Hq. auto.
Qed.

Lemma has_recipe_last rows r : existsb (fun r' => Recipe_Id r' =? Recipe_Id r) (rows ++ [r]) = true.
Proof.
  rewrite existsb_app. simpl. rewrite Z.eqb_refl, orb_true_r. reflexivity.
Qed.

(** A recipe stored without error has two join rows for every occurrence of
    an identifier in its list: the rows of the loop in [InsertRecipe], then
    the rows of [InsertRecipeIngredient]. *)
Lemma InsertRecipe_ok_rows s name description longDescription url categoryId ingredientIds id s' :
  InsertRecipe s name description longDescription url categoryId ingredientIds = ((id, None), s') ->
  ingredient_recipe s' =
    ingredient_recipe s ++ join_rows id ingredientIds ++ join_rows id ingredientIds.
Proof.
  unfold InsertRecipe.
  destruct (insert_recipe_returning_id s name description longDescription url categoryId)
    as [[id0|err] s1] eqn:Hrec; [|discriminate].
  rewrite InsertRecipe_range_eq.
  destruct (InsertRecipeIngredient s1 id0 ingredientIds) as [[err|] s2] eqn:Hfirst; [discriminate|].
  destruct (InsertRecipeIngredient s2 id0 ingredientIds) as [[err|] s3] eqn:Hsecond; [discriminate|].
  intros [= <- <-].
  apply InsertRecipeIngredient_ok_rows in Hfirst, Hsecond.
  apply insert_recipe_returning_id_ok in Hrec as (_ & _ & Hj & _).
  rewrite Hsecond, Hfirst, Hj, <- app_assoc. reflexivity.
Qed.

(** C1, on the code as it is.  A recipe is stored in [pantry] with the
    ingredient identifiers 1 and 2, every statement succeeding.  The join
    relation then holds two rows for each of the two identifiers, not one, and
    [GetRecipeWithIngredients] on the returned identifier lists each
    ingredient twice; as a set the fetched identifiers are still 1 and 2. *)
Theorem InsertRecipe_then_GetRecipeWithIngredients_pantry :
  let '((id, err), s1) := InsertRecipe pantry "Cake" "sweet" "very sweet" "cake.png" 1 [1; 2] in
  id = 1 /\ err = None /\
  ingredient_recipe s1 = [(1, id); (2, id); (1, id); (2, id)] /\
  count_join_rows s1 1 id = 2%nat /\
  count_join_rows s1 2 id = 2%nat /\
  exists dto,
    GetRecipeWithIngredients s1 id = ((Some dto, None), s1) /\
    elements_of (Dto_Ingredients dto) = [salt; salt; egg; egg] /\
    forall i, i ∈ map Ingedient_Id (elements_of (Dto_Ingredients dto)) <-> i ∈ [1; 2].
Proof.
  cbv beta iota zeta delta [InsertRecipe pantry]. vm_compute InsertRecipe.
  simpl.
  repeat split; try reflexivity.
  eexists. split; [reflexivity|]. split; [reflexivity|].
  intros i. simpl. rewrite !elem_of_cons. rewrite elem_of_nil. tauto.
Qed.

(** C10. When the first statement of [InsertRecipe] or of [InsertIngredient]
    fails, the method returns -1 and that error.  When the recipe row was
    stored and [InsertRecipe] still returns an error, which a join row then
    raised, the identifier it returns is the one the store generated; it is
    positive for a sequence that is, and the recipe row is in the relation. *)
Theorem insert_failure_identifiers :
  (forall s name description longDescription url categoryId ingredientIds err s1,
     insert_recipe_returning_id s name description longDescription url categoryId = (inr err, s1) ->
     InsertRecipe s name description longDescription url categoryId ingredientIds
       = ((-1, Some err), s1)) /\
  (forall s name amount url isAvailable err s1,
     insert_ingredient_returning_id s name amount url isAvailable = (inr err, s1) ->
     InsertIngredient s name amount url isAvailable = ((-1, Some err), s1)) /\
  (forall s name description longDescription url categoryId ingredientIds id s1 r err s',
     0 < recipe_id_seq s ->
     insert_recipe_returning_id s name description longDescription url categoryId = (inl id, s1) ->
     InsertRecipe s name description longDescription url categoryId ingredientIds
       = ((r, Some err), s') ->
     r = id /\ 0 < id /\ has_recipe s' id = true).
Proof.
  split; [|split].
  - intros s name description longDescription url categoryId ingredientIds err s1 H.
    unfold InsertRecipe. rewrite H. reflexivity.
  - intros s name amount url isAvailable err s1 H.
    unfold InsertIngredient. rewrite H. reflexivity.
  - intros s name description longDescription url categoryId ingredientIds id s1 r err s' Hseq Hrec.
    unfold InsertRecipe. rewrite Hrec, InsertRecipe_range_eq.
    apply insert_recipe_returning_id_ok in Hrec as (Hid & Hrows & _).
    assert (Hhas : has_recipe s1 id = true).
    { unfold has_recipe. rewrite Hrows.
      apply (has_recipe_last (recipe s) (mkRecipe id name description longDescription url categoryId)). }
    assert (Hkeep : forall res s2 s3, InsertRecipeIngredient s2 id ingredientIds = (res, s3) ->
                      has_recipe s2 id = true -> has_recipe s3 id = true).
    { intros res s2 s3 H. apply InsertRecipeIngredient_frame in H as (Hr & _).
      unfold has_recipe. rewrite Hr. auto. }
    destruct (InsertRecipeIngredient s1 id ingredientIds) as [[e1|] s2] eqn:Hfirst.
    + intros [= <- <- <-]. repeat split; [lia|]. eapply Hkeep; eauto.
    + destruct (InsertRecipeIngredient s2 id ingredientIds) as [[e2|] s3] eqn:Hsecond; [|discriminate].
      intros [= <- <- <-]. repeat split; [lia|]. eapply Hkeep; eauto.
Qed.

Lemma insert_failure_identifiers_witness :
  InsertRecipe pantry_offline "Cake" "sweet" "very sweet" "cake.png" 1 [1; 2]
    = ((-1, Some (ErrDriver "connection refused")), pantry) /\
  InsertIngredient pantry_offline "Sugar" "1 cup" "" true
    = ((-1, Some (ErrDriver "connection refused")), pantry) /\
  fst (InsertRecipe pantry "Cake" "sweet" "very sweet" "cake.png" 1 [1; 9])
    = (1, Some (ErrForeignKey "ingredient_recipe")) /\
  (1 = 1 /\ 0 < 1 /\
   has_recipe (snd (InsertRecipe pantry "Cake" "sweet" "very sweet" "cake.png" 1 [1; 9])) 1 = true).
Proof.
  destruct insert_failure_identifiers as (Hrecipe & Hingredient & Hjoin).
  split; [|split; [|split]].
  - apply Hrecipe. reflexivity.
  - apply Hingredient. reflexivity.
  - reflexivity.
  - eapply (Hjoin pantry "Cake" "sweet" "very sweet" "cake.png" 1 [1; 9] 1 _ 1).
    + reflexivity.
    + reflexivity.
    + reflexivity.
Defined.

(** ** Reads *)

Lemma scan_rows_from {A : Type} (rows : list A) : forall l,
  fold_left append rows (Slice l) = Slice (l ++ rows).
Proof.
  induction rows as [|x rows IH]; intros l; simpl.
  - rewrite app_nil_r. reflexivity.
  - rewrite IH, <- app_assoc. reflexivity.
Qed.

Lemma scan_rows_elements {A : Type} (rows : list A) : elements_of (scan_rows rows) = rows.
Proof.
  destruct rows as [|x rows]; [reflexivity|].
  unfold scan_rows. simpl. rewrite scan_rows_from. reflexivity.
Qed.

Lemma GetRecipes_quiet s category :
  faults s = [] ->
  GetRecipes s category = ((scan_rows (matching_recipes s category), None), s).
Proof.
  intros Hq. unfold GetRecipes, matching_recipes, Query, rows_Err.
  rewrite (driver_quiet s Hq).
  destruct (bool_decide (category <> "")); rewrite (driver_quiet s Hq); reflexivity.
Qed.

Lemma select_recipe_by_id_none s recipeId :
  (forall r, r ∈ recipe s -> Recipe_Id r <> recipeId) -> select_recipe_by_id s recipeId = [].
Proof.
  unfold select_recipe_by_id. induction (recipe s) as [|r rows IH]; intros Hnone.
  - reflexivity.
  - rewrite filter_cons_False.
    + apply IH. intros r' Hr'. apply Hnone. right. exact Hr'.
    + apply Hnone. left.
Qed.

(** C5. When no recipe row has the identifier, [GetRecipeWithIngredients]
    returns no record and an error: [sql.ErrNoRows], unless the driver failed
    the query with an error of its own.  No record comes back either way. *)
Theorem GetRecipeWithIngredients_not_found (s : Store) (recipeId : Z) :
  (forall r, r ∈ recipe s -> Recipe_Id r <> recipeId) ->
  GetRecipeWithIngredients s recipeId
    = ((None, Some (default ErrNoRows (next_fault s))), snd (driver s)).
Proof.
  intros Hnone. unfold GetRecipeWithIngredients, QueryRow, next_fault.
  assert (Hrows : select_recipe_by_id s recipeId = []).
  { apply select_recipe_by_id_none, Hnone. }
  rewrite Hrows. destruct (driver s) as [[err|] s1]; reflexivity.
Qed.

Lemma GetRecipeWithIngredients_not_found_witness :
  (forall r, r ∈ recipe kitchen -> Recipe_Id r <> 7) /\
  GetRecipeWithIngredients kitchen 7 = ((None, Some ErrNoRows), kitchen).
Proof.
  assert (H : forall r, r ∈ recipe kitchen -> Recipe_Id r <> 7).
  { intros r Hr. apply list_elem_of_singleton in Hr. subst r. simpl. lia. }
  split; [exact H|].
  exact (GetRecipeWithIngredients_not_found kitchen 7 H).
Defined.

(** ** UpdateRecipe *)

Lemma update_row_other id name description url r :
  Recipe_Id r <> id -> update_row id name description url r = r.
Proof.
  intros Hne. unfold update_row. destruct (Z.eqb_spec (Recipe_Id r) id); [contradiction|reflexivity].
Qed.

Lemma update_row_kept id name description url r :
  Recipe_Id (update_row id name description url r) = Recipe_Id r /\
  Recipe_LongDescription (update_row id name description url r) = Recipe_LongDescription r /\
  Recipe_CategoryId (update_row id name description url r) = Recipe_CategoryId r.
Proof. unfold update_row. destruct (Recipe_Id r =? id); auto. Qed.

Lemma update_row_hit id name description url r :
  Recipe_Id r = id ->
  update_row id name description url r
    = mkRecipe id name description (Recipe_LongDescription r) url (Recipe_CategoryId r).
Proof. intros <-. unfold update_row. rewrite Z.eqb_refl. reflexivity. Qed.

Lemma Forall2_map_diag {A : Type} (f : A -> A) (Q : A -> A -> Prop) (l : list A) :
  (forall x, Q x (f x)) -> Forall2 Q l (map f l).
Proof. intros HQ. induction l; simpl; constructor; auto. Qed.

(** C9. [UpdateRecipe] leaves the ingredients, the join relation, the
    categories and both sequences as they were, and the recipe relation keeps
    its rows in place: a row with another identifier is unchanged, and the row
    with the identifier keeps its identifier, long description and category,
    taking the new name, description and image URL when the statement ran.
    The only error is one the driver reports; when no row has the identifier
    the recipe relation is unchanged and nothing else is reported. *)
Theorem UpdateRecipe_frame (s : Store) (id : Z) (name description url : string)
    (err : option error) (s' : Store) :
  UpdateRecipe s id name description url = (err, s') ->
  err = next_fault s /\
  ingredient s' = ingredient s /\
  ingredient_recipe s' = ingredient_recipe s /\
  category s' = category s /\
  recipe_id_seq s' = recipe_id_seq s /\
  ingredient_id_seq s' = ingredient_id_seq s /\
  Forall2 (fun r r' =>
             Recipe_Id r' = Recipe_Id r /\
             Recipe_LongDescription r' = Recipe_LongDescription r /\
             Recipe_CategoryId r' = Recipe_CategoryId r /\
             (Recipe_Id r <> id -> r' = r) /\
             (Recipe_Id r = id -> err = None ->
              Recipe_Name r' = name /\ Recipe_Description r' = description /\ Recipe_Url r' = url))
          (recipe s) (recipe s') /\
  ((forall r, r ∈ recipe s -> Recipe_Id r <> id) -> recipe s' = recipe s).
Proof.
  unfold UpdateRecipe, update_recipe, next_fault.
  pose proof (driver_tables s) as (Hr & Hi & Hj & Hc & Hq & Hq').
  destruct (driver s) as [[e|] s0]; simpl in *; intros [= <- <-]; simpl.
  - rewrite Hr. repeat split; auto.
    apply Forall_Forall2_diag, Forall_forall. intros r _.
    repeat split; auto; discriminate.
  - rewrite Hr. repeat split; auto.
    + apply Forall2_map_diag. intros r.
      pose proof (update_row_kept id name description url r) as (H1 & H2 & H3).
      split; [exact H1|]. split; [exact H2|]. split; [exact H3|].
      split; [apply update_row_other|].
      intros Hid _. rewrite (update_row_hit _ _ _ _ _ Hid). auto.
    + intros Hnone. rewrite <- (map_id (recipe s)) at 2.
      apply map_ext_in. intros r Hin. apply update_row_other, Hnone, list_elem_of_In, Hin.
Qed.

Lemma UpdateRecipe_frame_witness :
  UpdateRecipe kitchen 7 "Stew" "warm" "stew.png" = (None, kitchen) /\
  (forall r, r ∈ recipe kitchen -> Recipe_Id r <> 7) /\
  None = next_fault kitchen /\
  ingredient_recipe kitchen = ingredient_recipe kitchen /\
  recipe kitchen = recipe kitchen.
Proof.
  assert (Hnone : forall r, r ∈ recipe kitchen -> Recipe_Id r <> 7).
  { intros r Hr. apply list_elem_of_singleton in Hr. subst r. simpl. lia. }
  destruct (UpdateRecipe_frame kitchen 7 "Stew" "warm" "stew.png" None kitchen eq_refl)
    as (Herr & _ & Hjoin & _ & _ & _ & _ & Hrows).
  split; [reflexivity|]. split; [exact Hnone|]. split; [exact Herr|].
  split; [exact Hjoin|]. exact (Hrows Hnone).
Defined.

(** ** Health *)

Section HealthProperties.

Variable Error : error -> string.
Variable Duration_String : Z -> string.

(** C7. [Health] pings under a context of one second (10^9 ns).  When the
    ping succeeds it returns a map with the status up, a message and the
    counters of the connection pool.  When the ping fails the call ends in
    [log.Fatalf], after the map got the status down: the call does not
    return, so no caller sees that map. *)
Theorem Health_outcomes (s : Store) :
  Health_timeout = 1000000000 /\
  match PingContext s Health_timeout with
  | (None, s1) =>
      exists m,
        Health Error Duration_String s = (Health_returns m, s1) /\
        m !! "status" = Some "up" /\
        is_Some (m !! "message") /\
        m !! "open_connections" = Some (Itoa (OpenConnections (stats s1))) /\
        m !! "in_use" = Some (Itoa (InUse (stats s1))) /\
        m !! "idle" = Some (Itoa (Idle (stats s1))) /\
        m !! "wait_count" = Some (Itoa (WaitCount (stats s1))) /\
        m !! "wait_duration" = Some (Duration_String (WaitDuration (stats s1))) /\
        m !! "max_idle_closed" = Some (Itoa (MaxIdleClosed (stats s1))) /\
        m !! "max_lifetime_closed" = Some (Itoa (MaxLifetimeClosed (stats s1)))
  | (Some err, s1) =>
      exists m,
        Health Error Duration_String s = (Health_exits ("db down: " +:+ Error err) m, s1) /\
        m !! "status" = Some "down"
  end.
Proof.
  split; [reflexivity|].
  unfold Health. destruct (PingContext s Health_timeout) as [[err|] s1].
  - eexists. split; [reflexivity|].
    rewrite lookup_insert_ne by discriminate. apply lookup_insert_eq.
  - eexists. split; [reflexivity|].
    repeat case_match; simplify_map_eq; eauto 12.
Qed.

End HealthProperties.

Example Health_pantry :
  exists m,
    Health sample_Error sample_Duration_String pantry = (Health_returns m, pantry) /\
    m !! "status" = Some "up" /\ m !! "message" = Some "It's healthy" /\
    m !! "open_connections" = Some "1".
Proof.
  eexists. split; [reflexivity|]. unfold no_stats. simpl.
  repeat split; simplify_map_eq; reflexivity.
Qed.

Example Health_pantry_slow :
  exists m,
    Health sample_Error sample_Duration_String pantry_slow
      = (Health_exits "db down: context deadline exceeded" m, pantry_slow) /\
    m !! "status" = Some "down".
Proof.
  eexists. split; [reflexivity|]. simplify_map_eq. reflexivity.
Qed.

(** ** Handlers *)

Section HandlerProperties.

Variable Error : error -> string.
Variable json_readValue : Reader -> string + error.
Variable json_unmarshal_RecipeInputDto : string -> RecipeInputDto -> RecipeInputDto * option error.
Variable json_unmarshal_Ingedient : string -> Ingedient -> Ingedient * option error.
Variable json_Unmarshal_map : string -> gmap string any + error.
Variable json_Marshal_Recipe : Recipe -> string.
Variable json_Marshal_RecipeWithIngredientsDto : RecipeWithIngredientsDto -> string.

(** C2. A body that is not empty and decodes to an object whose [category]
    is missing or is not a string makes [getRecipesHandler] panic at the
    type assertion: nothing was written to the response and the service was
    not called. *)
Theorem getRecipesHandler_panics (s : Store) (r : Request) (body : string)
    (data : gmap string any) :
  io_ReadAll (Body r) = (body, None) ->
  (0 < String.length body)%nat ->
  json_Unmarshal_map body = inl data ->
  (forall category, data !! "category" <> Some (any_string category)) ->
  getRecipesHandler Error json_Unmarshal_map json_Marshal_Recipe s r
    = mkHandled [] Panicked s.
Proof.
  intros Hread Hlen Hdata Hcat. unfold getRecipesHandler.
  rewrite Hread, Hdata. rewrite bool_decide_eq_true_2 by exact Hlen.
  unfold map_index. destruct (data !! "category") as [v|] eqn:Hv; [|reflexivity].
  destruct v; try reflexivity. exfalso. eapply Hcat. reflexivity.
Qed.

(** C3. When the body of a POST /recipe or POST /ingredient request is not
    a JSON value, the handler calls [http.Error] with status 400 and goes
    on: it calls the insert method with the fields of the zero value, then
    (after one more [http.Error] if the insert failed) [WriteHeader] with
    201 and writes the identifier line, all on the same response. *)
Theorem malformed_body_still_inserts (s : Store) (r : Request) (err : error)
    (id : Z) (ierr : option error) (s1 : Store)
    (id' : Z) (ierr' : option error) (s1' : Store) :
  json_readValue (Body r) = inr err ->
  InsertRecipe s "" "" "" "" 0 [] = ((id, ierr), s1) ->
  InsertIngredient s "" "" "" false = ((id', ierr'), s1') ->
  insertRecipeHandler Error json_readValue json_unmarshal_RecipeInputDto s r
    = mkHandled ([http_Error (Error err) StatusBadRequest;
                  Db (Call_InsertRecipe "" "" "" "" 0 [])]
                 ++ match ierr with
                    | Some e => [http_Error (Error e) StatusInternalServerError]
                    | None => []
                    end
                 ++ [WriteHeader StatusCreated; Write ("Recipe id: " +:+ Itoa id)])
                Returned s1 /\
  insertIngredientHandler Error json_readValue json_unmarshal_Ingedient s r
    = mkHandled ([http_Error (Error err) StatusBadRequest;
                  Db (Call_InsertIngredient "" "" "" false)]
                 ++ match ierr' with
                    | Some e => [http_Error (Error e) StatusInternalServerError]
                    | None => []
                    end
                 ++ [WriteHeader StatusCreated; Write ("Ingredient id: " +:+ Itoa id')])
                Returned s1'.
Proof.
  intros Hbad Hrecipe Hingredient. split.
  - unfold insertRecipeHandler, Decode_RecipeInputDto. rewrite Hbad. simpl.
    rewrite Hrecipe. destruct ierr; reflexivity.
  - unfold insertIngredientHandler, Decode_Ingedient. rewrite Hbad. simpl.
    rewrite Hingredient. destruct ierr'; reflexivity.
Qed.

(** The status line of such a response is the 400 of the first call: the
    later [WriteHeader] with 201 comes after the header was sent. *)
Lemma malformed_body_status (s : Store) (r : Request) (err : error) :
  json_readValue (Body r) = inr err ->
  status_written
    (events (insertRecipeHandler Error json_readValue json_unmarshal_RecipeInputDto s r))
    = Some StatusBadRequest /\
  status_written
    (events (insertIngredientHandler Error json_readValue json_unmarshal_Ingedient s r))
    = Some StatusBadRequest.
Proof.
  intros Hbad. split.
  - unfold insertRecipeHandler, Decode_RecipeInputDto. rewrite Hbad. simpl.
    destruct (InsertRecipe s "" "" "" "" 0 []) as [[id [e|]] s1]; reflexivity.
  - unfold insertIngredientHandler, Decode_Ingedient. rewrite Hbad. simpl.
    destruct (InsertIngredient s "" "" "" false) as [[id [e|]] s1]; reflexivity.
Qed.

(** C6. When the path value [recipeId] is not an integer, the handler
    calls [http.Error] with the error's text and status 400 and returns:
    the client gets status 400, the service is not called and the store is
    as it was. *)
Theorem getRecipeWithIngredients_bad_id (s : Store) (r : Request) (err : error) :
  Atoi (PathValue r "recipeId") = inr err ->
  getRecipeWithIngredients Error json_Marshal_RecipeWithIngredientsDto s r
    = mkHandled [http_Error (Error err) StatusBadRequest] Returned s /\
  status_written
    (events (getRecipeWithIngredients Error json_Marshal_RecipeWithIngredientsDto s r))
    = Some 400 /\
  List.filter is_db_call
    (events (getRecipeWithIngredients Error json_Marshal_RecipeWithIngredientsDto s r))
    = [].
Proof.
  intros Hbad. unfold getRecipeWithIngredients. rewrite Hbad. simpl.
  repeat split; reflexivity.
Qed.

(** C4, as the code has it.  Let the store answer without fault.  When the
    query of [GetRecipes] for a category name has no row, the method returns
    the nil slice and no error, and GET /recipes with that name in the body
    answers 200 with the JSON text [null] and a newline: the encoder writes a
    nil slice as [null], not as an empty array.  [GetRecipes] of the empty
    name returns every row of the recipe relation. *)
Theorem GetRecipes_no_match :
  (forall s category,
     faults s = [] -> matching_recipes s category = [] ->
     GetRecipes s category = ((nil_slice, None), s)) /\
  (forall s r body data category,
     faults s = [] ->
     io_ReadAll (Body r) = (body, None) ->
     (0 < String.length body)%nat ->
     json_Unmarshal_map body = inl data ->
     data !! "category" = Some (any_string category) ->
     matching_recipes s category = [] ->
     getRecipesHandler Error json_Unmarshal_map json_Marshal_Recipe s r
       = mkHandled [Db (Call_GetRecipes category);
                    Header_Set "Content-Type" "application/json";
                    WriteHeader StatusOK;
                    Write ("null" +:+ newline)] Returned s /\
     status_written
       (events (getRecipesHandler Error json_Unmarshal_map json_Marshal_Recipe s r))
       = Some 200 /\
     body_written
       (events (getRecipesHandler Error json_Unmarshal_map json_Marshal_Recipe s r))
       = "null" +:+ newline) /\
  (forall s,
     faults s = [] ->
     exists recipes,
       GetRecipes s "" = ((recipes, None), s) /\ elements_of recipes = recipe s).
Proof.
  split; [|split].
  - intros s category Hq Hrows. rewrite GetRecipes_quiet by exact Hq.
    rewrite Hrows. reflexivity.
  - intros s r body data category Hq Hread Hlen Hdata Hcat Hrows.
    unfold getRecipesHandler. rewrite Hread, Hdata.
    rewrite bool_decide_eq_true_2 by exact Hlen.
    unfold map_index. rewrite Hcat. simpl.
    rewrite GetRecipes_quiet by exact Hq. rewrite Hrows. simpl.
    repeat split; reflexivity.
  - intros s Hq. eexists. split; [apply GetRecipes_quiet, Hq|].
    apply scan_rows_elements.
Qed.

End HandlerProperties.

(** ** The statements at concrete requests *)

Lemma getRecipesHandler_panics_witness :
  getRecipesHandler sample_Error sample_Unmarshal_map sample_Marshal_Recipe
                    kitchen (request number_body "")
    = mkHandled [] Panicked kitchen /\
  getRecipesHandler sample_Error sample_Unmarshal_map sample_Marshal_Recipe
                    kitchen (request "{}" "")
    = mkHandled [] Panicked kitchen.
Proof.
  split.
  - apply (getRecipesHandler_panics sample_Error sample_Unmarshal_map sample_Marshal_Recipe
             kitchen (request number_body "") number_body
             {[ "category" := any_float64 4619567317775286272 ]}).
    + reflexivity.
    + vm_compute. lia.
    + reflexivity.
    + intros category. rewrite lookup_singleton_eq. discriminate.
  - apply (getRecipesHandler_panics sample_Error sample_Unmarshal_map sample_Marshal_Recipe
             kitchen (request "{}" "") "{}" ∅).
    + reflexivity.
    + vm_compute. lia.
    + reflexivity.
    + intros category. rewrite lookup_empty. discriminate.
Defined.

Lemma malformed_body_still_inserts_witness :
  sample_readValue (Body (request "{" "")) = inr (ErrJSON "unexpected EOF") /\
  events (insertRecipeHandler sample_Error sample_readValue sample_unmarshal_RecipeInputDto
                              pantry (request "{" ""))
    = [http_Error "unexpected EOF" 400;
       Db (Call_InsertRecipe "" "" "" "" 0 []);
       http_Error "violates foreign key constraint recipe.category_id" 500;
       WriteHeader 201;
       Write "Recipe id: -1"] /\
  events (insertIngredientHandler sample_Error sample_readValue sample_unmarshal_Ingedient
                                  pantry (request "{" ""))
    = [http_Error "unexpected EOF" 400;
       Db (Call_InsertIngredient "" "" "" false);
       WriteHeader 201;
       Write "Ingredient id: 3"].
Proof.
  split; [reflexivity|].
  destruct (malformed_body_still_inserts sample_Error sample_readValue
              sample_unmarshal_RecipeInputDto sample_unmarshal_Ingedient
              pantry (request "{" "") (ErrJSON "unexpected EOF")
              (-1) (Some (ErrForeignKey "recipe.category_id")) pantry
              3 None (snd (InsertIngredient pantry "" "" "" false))
              eq_refl eq_refl eq_refl) as [Hrecipe Hingredient].
  split.
  - rewrite Hrecipe. reflexivity.
  - rewrite Hingredient. reflexivity.
Defined.

Lemma getRecipeWithIngredients_bad_id_witness :
  Atoi "abc" = inr (NumError "Atoi" "abc" ErrSyntax) /\
  getRecipeWithIngredients sample_Error (fun _ => "{}") kitchen (request "" "abc")
    = mkHandled [http_Error (sample_Error (NumError "Atoi" "abc" ErrSyntax)) 400]
                Returned kitchen.
Proof.
  split; [reflexivity|].
  apply (getRecipeWithIngredients_bad_id sample_Error (fun _ => "{}") kitchen
           (request "" "abc") (NumError "Atoi" "abc" ErrSyntax)).
  reflexivity.
Defined.

Lemma GetRecipes_no_match_witness :
  matching_recipes kitchen "Dessert" = [] /\
  GetRecipes kitchen "Dessert" = ((nil_slice, None), kitchen) /\
  getRecipesHandler sample_Error sample_Unmarshal_map sample_Marshal_Recipe
                    kitchen (request dessert_body "")
    = mkHandled [Db (Call_GetRecipes "Dessert");
                 Header_Set "Content-Type" "application/json";
                 WriteHeader StatusOK;
                 Write ("null" +:+ newline)] Returned kitchen /\
  exists recipes,
    GetRecipes kitchen "" = ((recipes, None), kitchen) /\ elements_of recipes = recipe kitchen.
Proof.
  destruct (GetRecipes_no_match sample_Error sample_Unmarshal_map sample_Marshal_Recipe)
    as (Hservice & Hhandler & Hall).
  split; [reflexivity|]. split; [|split].
  - apply Hservice; reflexivity.
  - apply (Hhandler kitchen (request dessert_body "") dessert_body
             {[ "category" := any_string "Dessert" ]} "Dessert").
    + reflexivity.
    + reflexivity.
    + vm_compute. lia.
    + reflexivity.
    + apply lookup_singleton_eq.
    + reflexivity.
  - apply Hall. reflexivity.
Defined.

(** C4 as the specification words it fails on the code: with no dessert in
    the store, the body of the answer to [{"category":"Dessert"}] is not the
    empty array. *)
Lemma getRecipesHandler_no_dessert_body :
  matching_recipes kitchen "Dessert" = [] /\
  GetRecipes kitchen "Dessert" = ((nil_slice, None), kitchen) /\
  status_written
    (events (getRecipesHandler sample_Error sample_Unmarshal_map sample_Marshal_Recipe
                               kitchen (request dessert_body ""))) = Some 200 /\
  body_written
    (events (getRecipesHandler sample_Error sample_Unmarshal_map sample_Marshal_Recipe
                               kitchen (request dessert_body ""))) <> "[]" /\
  body_written
    (events (getRecipesHandler sample_Error sample_Unmarshal_map sample_Marshal_Recipe
                               kitchen (request dessert_body ""))) <> "[]" +:+ newline.
Proof.
  split; [reflexivity|]. split; [reflexivity|]. split; [vm_compute; reflexivity|].
  split; vm_compute; discriminate.
Qed.

(** * Further properties of the service *)

(** ** What the reads leave alone *)

Lemma same_data_refl s : same_data s s.
Proof. unfold same_data. auto 10. Qed.

Lemma same_data_trans s1 s2 s3 : same_data s1 s2 -> same_data s2 s3 -> same_data s1 s3.
Proof.
  unfold same_data. intros (H1 & H2 & H3 & H4 & H5 & H6) (K1 & K2 & K3 & K4 & K5 & K6).
  rewrite K1, K2, K3, K4, K5, K6. auto 10.
Qed.

Lemma driver_same_data s : same_data s (snd (driver s)).
Proof. exact (driver_tables s). Qed.

Lemma Query_same_data {A : Type} s (rows : list A) : same_data s (snd (Query s rows)).
Proof.
  unfold Query. pose proof (driver_same_data s) as H.
  destruct (driver s) as [[err|] s1]; exact H.
Qed.

Lemma QueryRow_same_data {A : Type} s (rows : list A) : same_data s (snd (QueryRow s rows)).
Proof.
  unfold QueryRow. pose proof (driver_same_data s) as H.
  destruct (driver s) as [[err|] s1]; [exact H|]. destruct rows; exact H.
Qed.

Lemma GetRecipes_same_data s category : same_data s (snd (GetRecipes s category)).
Proof.
  unfold GetRecipes.
  assert (H : forall rows : list Recipe,
            same_data s (snd (let '(rows0, s1) := Query s rows in
                              match rows0 with
                              | inr err => ((nil_slice, Some err), s1)
                              | inl rows1 =>
                                  match rows_Err s1 with
                                  | (Some err, s2) => ((nil_slice, Some err), s2)
                                  | (None, s2) => ((scan_rows rows1, None), s2)
                                  end
                              end))).
  { intros rows. pose proof (Query_same_data s rows) as H.
    destruct (Query s rows) as [[rows1|err] s1]; simpl in *; [|exact H].
    unfold rows_Err. pose proof (driver_same_data s1) as H1.
    destruct (driver s1) as [[err|] s2]; simpl in *; eapply same_data_trans; eauto. }
  destruct (bool_decide (category <> "")); apply H.
Qed.

Lemma GetRecipeWithIngredients_same_data s recipeId :
  same_data s (snd (GetRecipeWithIngredients s recipeId)).
Proof.
  unfold GetRecipeWithIngredients.
  pose proof (QueryRow_same_data s (select_recipe_by_id s recipeId)) as H.
  destruct (QueryRow s (select_recipe_by_id s recipeId)) as [[r|err] s1]; simpl in *; [|exact H].
  pose proof (Query_same_data s1 (select_ingredients_of s1 recipeId)) as H1.
  destruct (Query s1 (select_ingredients_of s1 recipeId)) as [[rows|err] s2]; simpl in *.
  - unfold rows_Err. pose proof (driver_same_data s2) as H2.
    destruct (driver s2) as [[err|] s3]; simpl in *;
      eapply same_data_trans; eauto; eapply same_data_trans; eauto.
  - eapply same_data_trans; eauto.
Qed.

Lemma GetIngredients_same_data s : same_data s (snd (GetIngredients s)).
Proof.
  unfold GetIngredients.
  pose proof (Query_same_data s (ingredient s)) as H.
  destruct (Query s (ingredient s)) as [[rows|err] s1]; simpl in *; [|exact H].
  unfold rows_Err. pose proof (driver_same_data s1) as H1.
  destruct (driver s1) as [[err|] s2]; simpl in *; eapply same_data_trans; eauto.
Qed.

(** X1. The three read methods change no row and no sequence of the store,
    whatever they return: after a call every relation is what it was. *)
Theorem reads_keep_the_data (s : Store) (category : string) (recipeId : Z) :
  same_data s (snd (GetRecipes s category)) /\
  same_data s (snd (GetRecipeWithIngredients s recipeId)) /\
  same_data s (snd (GetIngredients s)).
Proof.
  split; [apply GetRecipes_same_data|].
  split; [apply GetRecipeWithIngredients_same_data|apply GetIngredients_same_data].
Qed.

(** ** Integrity is kept by the writes *)

Lemma existsb_ids {A : Type} (f : A -> Z) (l : list A) (id : Z) :
  existsb (fun x => f x =? id) l = true <-> id ∈ map f l.
Proof.
  induction l as [|x l IH]; simpl.
  - rewrite elem_of_nil. split; [discriminate|tauto].
  - rewrite orb_true_iff, IH, elem_of_cons, Z.eqb_eq. intuition congruence.
Qed.

Lemma wf_same_data s s' : same_data s s' -> wf_store s -> wf_store s'.
Proof.
  unfold same_data, wf_store, has_ingredient, has_recipe, has_category.
  intros (H1 & H2 & H3 & H4 & H5 & H6). rewrite H1, H2, H3, H4, H5, H6. tauto.
Qed.

Lemma wf_driver s : wf_store s -> wf_store (snd (driver s)).
Proof. apply wf_same_data, driver_same_data. Qed.

Lemma wf_insert_ingredient_recipe s ingredientId recipeId :
  wf_store s -> wf_store (snd (insert_ingredient_recipe s ingredientId recipeId)).
Proof.
  intros Hwf. apply wf_driver in Hwf. unfold insert_ingredient_recipe.
  destruct (driver s) as [[err|] s1]; simpl in *; [exact Hwf|].
  destruct (join_row_accepted s1 ingredientId recipeId) eqn:Hacc; [|exact Hwf].
  unfold join_row_accepted in Hacc. apply andb_true_iff in Hacc.
  destruct Hwf as (H1 & H2 & H3 & H4 & H5 & H6 & H7 & H8).
  unfold wf_store, has_ingredient, has_recipe, has_category in *. simpl.
  repeat split; auto. apply Forall_app. split; [exact H7|].
  constructor; [exact Hacc|constructor].
Qed.

Lemma wf_InsertRecipeIngredient ingredientIds : forall s recipeId,
  wf_store s -> wf_store (snd (InsertRecipeIngredient s recipeId ingredientIds)).
Proof.
  induction ingredientIds as [|i rest IH]; intros s recipeId Hwf; simpl; [exact Hwf|].
  pose proof (wf_insert_ingredient_recipe s i recipeId Hwf) as H.
  destruct (insert_ingredient_recipe s i recipeId) as [[err|] s1]; simpl in *; auto.
Qed.

Lemma wf_insert_recipe s name description longDescription url categoryId :
  wf_store s ->
  wf_store (snd (insert_recipe_returning_id s name description longDescription url categoryId)).
Proof.
  intros Hwf. apply wf_driver in Hwf. unfold insert_recipe_returning_id.
  destruct (driver s) as [[err|] s1]; simpl in *; [exact Hwf|].
  destruct (recipe_row_accepted s1 categoryId) eqn:Hacc; [|exact Hwf].
  destruct Hwf as (H1 & H2 & H3 & H4 & H5 & H6 & H7 & H8).
  unfold wf_store, has_ingredient, has_recipe, has_category, recipe_row_accepted in *. simpl.
  split; [lia|]. split; [exact H2|]. split; [|split; [exact H4|split; [|split; [exact H6|split]]]].
  - apply Forall_app. split.
    + eapply Forall_impl; [exact H3|]. simpl. intros r Hr. lia.
    + constructor; [simpl; lia|constructor].
  - rewrite map_app. apply NoDup_app. split; [exact H5|]. split.
    + intros id Hid Hnew. simpl in Hnew. apply list_elem_of_singleton in Hnew. subst id.
      apply list_elem_of_In, in_map_iff in Hid as (r & Hr & Hin).
      rewrite Forall_forall in H3. apply list_elem_of_In, H3 in Hin. lia.
    + simpl. apply NoDup_singleton.
  - eapply Forall_impl; [exact H7|]. simpl. intros ir (Hi & Hr). split; [exact Hi|].
    rewrite existsb_app, Hr. reflexivity.
  - apply Forall_app. split; [exact H8|]. constructor; [exact Hacc|constructor].
Qed.

Lemma wf_insert_ingredient s name amount url isAvailable :
  wf_store s ->
  wf_store (snd (insert_ingredient_returning_id s name amount url isAvailable)).
Proof.
  intros Hwf. apply wf_driver in Hwf. unfold insert_ingredient_returning_id.
  destruct (driver s) as [[err|] s1]; simpl in *; [exact Hwf|].
  destruct Hwf as (H1 & H2 & H3 & H4 & H5 & H6 & H7 & H8).
  unfold wf_store, has_ingredient, has_recipe, has_category in *. simpl.
  split; [exact H1|]. split; [lia|]. split; [exact H3|]. split; [|split; [exact H5|split; [|split; [|exact H8]]]].
  - apply Forall_app. split.
    + eapply Forall_impl; [exact H4|]. simpl. intros r Hr. lia.
    + constructor; [simpl; lia|constructor].
  - rewrite map_app. apply NoDup_app. split; [exact H6|]. split.
    + intros id Hid Hnew. simpl in Hnew. apply list_elem_of_singleton in Hnew. subst id.
      apply list_elem_of_In, in_map_iff in Hid as (r & Hr & Hin).
      rewrite Forall_forall in H4. apply list_elem_of_In, H4 in Hin. lia.
    + simpl. apply NoDup_singleton.
  - eapply Forall_impl; [exact H7|]. simpl. intros ir (Hi & Hr). split; [|exact Hr].
    rewrite existsb_app, Hi. reflexivity.
Qed.

Lemma update_rows_ids id name description url rows :
  map Recipe_Id (map (update_row id name description url) rows) = map Recipe_Id rows.
Proof.
  induction rows as [|r rows IH]; simpl; [reflexivity|].
  rewrite IH. f_equal. apply update_row_kept.
Qed.

Lemma wf_update_recipe s id name description url :
  wf_store s -> wf_store (snd (update_recipe s id name description url)).
Proof.
  intros Hwf. apply wf_driver in Hwf. unfold update_recipe.
  destruct (driver s) as [[err|] s1]; simpl in *; [exact Hwf|].
  destruct Hwf as (H1 & H2 & H3 & H4 & H5 & H6 & H7 & H8).
  unfold wf_store, has_ingredient, has_recipe, has_category in *. simpl.
  split; [exact H1|]. split; [exact H2|]. split; [|split; [exact H4|split; [|split; [exact H6|split]]]].
  - apply Forall_forall. intros r' Hin. apply list_elem_of_In, in_map_iff in Hin as (r & <- & Hin).
    rewrite Forall_forall in H3. apply list_elem_of_In, H3 in Hin.
    destruct (update_row_kept id name description url r) as (-> & _). exact Hin.
  - rewrite update_rows_ids. exact H5.
  - eapply Forall_impl; [exact H7|]. simpl. intros ir (Hi & Hr). split; [exact Hi|].
    apply existsb_ids. rewrite update_rows_ids. apply existsb_ids. exact Hr.
  - apply Forall_forall. intros r' Hin. apply list_elem_of_In, in_map_iff in Hin as (r & <- & Hin).
    rewrite Forall_forall in H8. apply list_elem_of_In, H8 in Hin.
    destruct (update_row_kept id name description url r) as (_ & _ & ->). exact Hin.
Qed.

(** X2. Every write method keeps the integrity of the store, also when it
    stops at an error half way: identifiers stay positive, distinct and below
    their sequence, and every join row and every recipe still refers to rows
    that exist. *)
Theorem writes_keep_integrity (s : Store) :
  wf_store s ->
  (forall name description longDescription url categoryId ingredientIds,
     wf_store (snd (InsertRecipe s name description longDescription url categoryId ingredientIds))) /\
  (forall recipeId ingredientIds,
     wf_store (snd (InsertRecipeIngredient s recipeId ingredientIds))) /\
  (forall name amount url isAvailable,
     wf_store (snd (InsertIngredient s name amount url isAvailable))) /\
  (forall id name description url,
     wf_store (snd (UpdateRecipe s id name description url))).
Proof.
  intros Hwf. split; [|split; [|split]].
  - intros name description longDescription url categoryId ingredientIds.
    unfold InsertRecipe.
    pose proof (wf_insert_recipe s name description longDescription url categoryId Hwf) as H1.
    destruct (insert_recipe_returning_id s name description longDescription url categoryId)
      as [[id|err] s1]; simpl in *; [|exact H1].
    rewrite InsertRecipe_range_eq.
    pose proof (wf_InsertRecipeIngredient ingredientIds s1 id H1) as H2.
    destruct (InsertRecipeIngredient s1 id ingredientIds) as [[err|] s2]; simpl in *; [exact H2|].
    pose proof (wf_InsertRecipeIngredient ingredientIds s2 id H2) as H3.
    destruct (InsertRecipeIngredient s2 id ingredientIds) as [[err|] s3]; exact H3.
  - intros recipeId ingredientIds. apply wf_InsertRecipeIngredient, Hwf.
  - intros name amount url isAvailable. unfold InsertIngredient.
    pose proof (wf_insert_ingredient s name amount url isAvailable Hwf) as H1.
    destruct (insert_ingredient_returning_id s name amount url isAvailable) as [[id|err] s1];
      exact H1.
  - intros id name description url. unfold UpdateRecipe.
    pose proof (wf_update_recipe s id name description url Hwf) as H1.
    destruct (update_recipe s id name description url) as [[err|] s1]; exact H1.
Qed.

Lemma writes_keep_integrity_witness :
  wf_store kitchen /\
  wf_store (snd (InsertRecipe kitchen "Cake" "sweet" "very sweet" "cake.png" 1 [1; 9])) /\
  wf_store (snd (UpdateRecipe kitchen 1 "Stew" "warm" "stew.png")).
Proof.
  assert (Hwf : wf_store kitchen).
  { apply (bool_decide_unpack (wf_store kitchen)). vm_compute. exact I. }
  destruct (writes_keep_integrity kitchen Hwf) as (Hrecipe & _ & _ & Hupdate).
  split; [exact Hwf|]. split; [apply Hrecipe|apply Hupdate].
Defined.

(** ** What InsertRecipe stores *)

Lemma InsertRecipeIngredient_app_eq done rest : forall s recipeId,
  InsertRecipeIngredient s recipeId (done ++ rest) =
    match InsertRecipeIngredient s recipeId done with
    | (Some err, s1) => (Some err, s1)
    | (None, s1) => InsertRecipeIngredient s1 recipeId rest
    end.
Proof.
  induction done as [|i done IH]; intros s recipeId; simpl; [reflexivity|].
  destruct (insert_ingredient_recipe s i recipeId) as [[err|] s1]; [reflexivity|apply IH].
Qed.

Lemma InsertRecipeIngredient_err_rows ingredientIds : forall s recipeId err s1,
  InsertRecipeIngredient s recipeId ingredientIds = (Some err, s1) ->
  exists k, (k < length ingredientIds)%nat /\
    ingredient_recipe s1 = ingredient_recipe s ++ join_rows recipeId (take k ingredientIds).
Proof.
  induction ingredientIds as [|i rest IH]; intros s recipeId err s1; simpl; [discriminate|].
  destruct (insert_ingredient_recipe s i recipeId) as [[e|] s0] eqn:Hins.
  - intros [= <- <-]. exists 0%nat. simpl. rewrite app_nil_r.
    apply insert_ingredient_recipe_err in Hins as (Hrows & _). split; [lia|exact Hrows].
  - intros H. apply IH in H as (k & Hk & Hrows).
    apply insert_ingredient_recipe_ok in Hins as (Hrows0 & _).
    exists (S k). simpl. split; [lia|]. rewrite Hrows, Hrows0, <- app_assoc. reflexivity.
Qed.

Lemma InsertRecipeIngredient_ok_ingredients ingredientIds : forall s recipeId s1,
  InsertRecipeIngredient s recipeId ingredientIds = (None, s1) ->
  Forall (fun i => has_ingredient s i = true) ingredientIds.
Proof.
  induction ingredientIds as [|i rest IH]; intros s recipeId s1; simpl; [constructor|].
  destruct (insert_ingredient_recipe s i recipeId) as [[e|] s0] eqn:Hins; [discriminate|].
  intros H. pose proof (insert_ingredient_recipe_ok _ _ _ _ Hins) as (_ & _ & Hing & _).
  apply IH in H. constructor.
  - revert Hins. unfold insert_ingredient_recipe.
    pose proof (driver_tables s) as (_ & Hi & _).
    destruct (driver s) as [[e|] s2]; simpl in *; [discriminate|].
    destruct (join_row_accepted s2 i recipeId) eqn:Hacc; [|discriminate].
    intros _. apply andb_true_iff in Hacc as (Hacc & _).
    unfold has_ingredient in *. rewrite <- Hi. exact Hacc.
  - eapply Forall_impl; [exact H|]. simpl. intros j Hj.
    unfold has_ingredient in *. rewrite <- Hing. exact Hj.
Qed.

Lemma insert_recipe_returning_id_frame s name description longDescription url categoryId id s1 :
  insert_recipe_returning_id s name description longDescription url categoryId = (inl id, s1) ->
  recipe_id_seq s1 = id + 1 /\ category s1 = category s /\
  ingredient_id_seq s1 = ingredient_id_seq s /\ has_category s categoryId = true.
Proof.
  unfold insert_recipe_returning_id.
  pose proof (driver_tables s) as (Hr & Hi & Hj & Hc & Hq & Hq').
  destruct (driver s) as [[err|] s0]; simpl in *; [discriminate|].
  destruct (recipe_row_accepted s0 categoryId) eqn:Hacc; [|discriminate].
  intros [= <- <-]. simpl. unfold recipe_row_accepted, has_category in *.
  rewrite <- Hc. auto.
Qed.

Lemma insert_recipe_returning_id_err s name description longDescription url categoryId err s1 :
  insert_recipe_returning_id s name description longDescription url categoryId = (inr err, s1) ->
  same_data s s1.
Proof.
  unfold insert_recipe_returning_id. pose proof (driver_same_data s) as H.
  destruct (driver s) as [[e|] s0]; simpl in *; [intros [= <- <-]; exact H|].
  destruct (recipe_row_accepted s0 categoryId); [discriminate|]. intros [= <- <-]. exact H.
Qed.

(** The two passes of [InsertRecipe] over the identifiers are one pass of
    [InsertRecipeIngredient] over the list followed by itself. *)
Lemma InsertRecipe_two_passes s name description longDescription url categoryId ingredientIds :
  InsertRecipe s name description longDescription url categoryId ingredientIds =
    match insert_recipe_returning_id s name description longDescription url categoryId with
    | (inr err, s1) => ((-1, Some err), s1)
    | (inl id, s1) =>
        let '(err, s2) := InsertRecipeIngredient s1 id (ingredientIds ++ ingredientIds) in
        ((id, err), s2)
    end.
Proof.
  unfold InsertRecipe.
  destruct (insert_recipe_returning_id s name description longDescription url categoryId)
    as [[id|err] s1]; [|reflexivity].
  rewrite InsertRecipe_range_eq, InsertRecipeIngredient_app_eq.
  destruct (InsertRecipeIngredient s1 id ingredientIds) as [[err|] s2]; [reflexivity|].
  destruct (InsertRecipeIngredient s2 id ingredientIds) as [[err|] s3]; reflexivity.
Qed.

Lemma InsertRecipe_ok_facts s name description longDescription url categoryId ingredientIds id s' :
  InsertRecipe s name description longDescription url categoryId ingredientIds
    = ((id, None), s') ->
  id = recipe_id_seq s /\
  recipe s' = recipe s ++ [mkRecipe id name description longDescription url categoryId] /\
  ingredient_recipe s' =
    ingredient_recipe s ++ join_rows id ingredientIds ++ join_rows id ingredientIds /\
  ingredient s' = ingredient s /\
  has_category s categoryId = true /\
  Forall (fun i => has_ingredient s i = true) ingredientIds.
Proof.
  rewrite InsertRecipe_two_passes.
  destruct (insert_recipe_returning_id s name description longDescription url categoryId)
    as [[id0|err] s1] eqn:Hrec; [|discriminate].
  destruct (InsertRecipeIngredient s1 id0 (ingredientIds ++ ingredientIds)) as [err s2] eqn:Hjoin.
  intros [= -> -> ->].
  pose proof (insert_recipe_returning_id_ok _ _ _ _ _ _ _ _ Hrec) as (Hid & Hrows & Hj & Hing).
  pose proof (insert_recipe_returning_id_frame _ _ _ _ _ _ _ _ Hrec) as (_ & _ & _ & Hhas).
  pose proof (InsertRecipeIngredient_frame _ _ _ _ _ Hjoin) as (Hr2 & Hi2 & _).
  pose proof (InsertRecipeIngredient_ok_rows _ _ _ _ Hjoin) as Hj2.
  pose proof (InsertRecipeIngredient_ok_ingredients _ _ _ _ Hjoin) as Hall.
  apply Forall_app in Hall as (Hall & _).
  repeat split; try congruence.
  - rewrite Hj2, Hj. unfold join_rows. rewrite map_app. reflexivity.
  - eapply Forall_impl; [exact Hall|]. simpl. intros i Hi.
    unfold has_ingredient in *. rewrite <- Hing. exact Hi.
Qed.

(** X3. When [InsertRecipe] returns no error, the identifier is the next
    value of the sequence, the recipe relation gained exactly the new row, and
    the join relation gained the rows of the identifier list twice over: two
    rows for every occurrence of an ingredient identifier.  The category and
    every listed ingredient existed. *)
Theorem InsertRecipe_success (s : Store) (name description longDescription url : string)
    (categoryId : Z) (ingredientIds : list Z) (id : Z) (s' : Store) :
  InsertRecipe s name description longDescription url categoryId ingredientIds
    = ((id, None), s') ->
  id = recipe_id_seq s /\
  recipe_id_seq s' = id + 1 /\
  recipe s' = recipe s ++ [mkRecipe id name description longDescription url categoryId] /\
  ingredient_recipe s' =
    ingredient_recipe s ++ join_rows id ingredientIds ++ join_rows id ingredientIds /\
  ingredient s' = ingredient s /\
  category s' = category s /\
  has_category s categoryId = true /\
  Forall (fun i => has_ingredient s i = true) ingredientIds.
Proof.
  intros Hins.
  pose proof (InsertRecipe_ok_facts _ _ _ _ _ _ _ _ _ Hins)
    as (Hid & Hrows & Hj & Hing & Hcat & Hall).
  rewrite InsertRecipe_two_passes in Hins.
  destruct (insert_recipe_returning_id s name description longDescription url categoryId)
    as [[id0|err] s1] eqn:Hrec; [|discriminate].
  destruct (InsertRecipeIngredient s1 id0 (ingredientIds ++ ingredientIds)) as [err s2] eqn:Hjoin.
  injection Hins as -> -> ->.
  pose proof (insert_recipe_returning_id_frame _ _ _ _ _ _ _ _ Hrec) as (Hseq & Hc & _).
  pose proof (InsertRecipeIngredient_frame _ _ _ _ _ Hjoin) as (_ & _ & Hc2 & Hq2).
  repeat split; try assumption; congruence.
Qed.

Lemma InsertRecipe_success_witness :
  InsertRecipe pantry "Cake" "sweet" "very sweet" "cake.png" 1 [1; 2; 1]
    = ((1, None), snd (InsertRecipe pantry "Cake" "sweet" "very sweet" "cake.png" 1 [1; 2; 1])) /\
  ingredient_recipe (snd (InsertRecipe pantry "Cake" "sweet" "very sweet" "cake.png" 1 [1; 2; 1]))
    = ingredient_recipe pantry ++ join_rows 1 [1; 2; 1] ++ join_rows 1 [1; 2; 1].
Proof.
  split; [reflexivity|].
  apply (InsertRecipe_success pantry "Cake" "sweet" "very sweet" "cake.png" 1 [1; 2; 1] 1 _ eq_refl).
Defined.

(** X4. [InsertRecipe] undoes nothing.  When it returns an error, either the
    recipe statement failed, the identifier is -1 and no row changed; or the
    recipe row is stored under the returned identifier together with the join
    rows of a proper prefix of the identifier list followed by itself. *)
Theorem InsertRecipe_failure (s : Store) (name description longDescription url : string)
    (categoryId : Z) (ingredientIds : list Z) (id : Z) (err : error) (s' : Store) :
  InsertRecipe s name description longDescription url categoryId ingredientIds
    = ((id, Some err), s') ->
  (id = -1 /\ same_data s s') \/
  (id = recipe_id_seq s /\
   recipe s' = recipe s ++ [mkRecipe id name description longDescription url categoryId] /\
   exists k, (k < 2 * length ingredientIds)%nat /\
     ingredient_recipe s' =
       ingredient_recipe s ++ join_rows id (take k (ingredientIds ++ ingredientIds))).
Proof.
  rewrite InsertRecipe_two_passes.
  destruct (insert_recipe_returning_id s name description longDescription url categoryId)
    as [[id0|e] s1] eqn:Hrec.
  - destruct (InsertRecipeIngredient s1 id0 (ingredientIds ++ ingredientIds)) as [e s2] eqn:Hjoin.
    intros [= <- -> <-]. right.
    pose proof (insert_recipe_returning_id_ok _ _ _ _ _ _ _ _ Hrec) as (Hid & Hrows & Hj & _).
    pose proof (InsertRecipeIngredient_frame _ _ _ _ _ Hjoin) as (Hr2 & _).
    apply InsertRecipeIngredient_err_rows in Hjoin as (k & Hk & Hj2).
    split; [exact Hid|]. split; [congruence|].
    exists k. rewrite length_app in Hk. split; [lia|]. rewrite Hj2, Hj. reflexivity.
  - intros [= <- <- <-]. left. split; [reflexivity|].
    eapply insert_recipe_returning_id_err, Hrec.
Qed.

Lemma InsertRecipe_failure_witness :
  InsertRecipe pantry "Cake" "sweet" "very sweet" "cake.png" 1 [1; 9]
    = ((1, Some (ErrForeignKey "ingredient_recipe")),
       snd (InsertRecipe pantry "Cake" "sweet" "very sweet" "cake.png" 1 [1; 9])) /\
  ((1 = -1 /\ same_data pantry (snd (InsertRecipe pantry "Cake" "sweet" "very sweet" "cake.png" 1 [1; 9]))) \/
   (1 = recipe_id_seq pantry /\
    recipe (snd (InsertRecipe pantry "Cake" "sweet" "very sweet" "cake.png" 1 [1; 9]))
      = recipe pantry ++ [mkRecipe 1 "Cake" "sweet" "very sweet" "cake.png" 1] /\
    exists k, (k < 2 * length [1; 9])%nat /\
      ingredient_recipe (snd (InsertRecipe pantry "Cake" "sweet" "very sweet" "cake.png" 1 [1; 9]))
        = ingredient_recipe pantry ++ join_rows 1 (take k ([1; 9] ++ [1; 9])))).
Proof.
  split; [reflexivity|].
  apply (InsertRecipe_failure pantry "Cake" "sweet" "very sweet" "cake.png" 1 [1; 9] 1
           (ErrForeignKey "ingredient_recipe") _ eq_refl).
Defined.

(** ** Round trips *)

Lemma select_ingredients_of_joined s recipeId :
  select_ingredients_of s recipeId
    = ingredients_joined (ingredient s) (ingredient_recipe s) recipeId.
Proof. reflexivity. Qed.

Lemma ingredients_joined_In ings rows recipeId x :
  In x (ingredients_joined ings rows recipeId) <->
  In x ings /\ In (Ingedient_Id x, recipeId) rows.
Proof.
  unfold ingredients_joined. rewrite in_flat_map. split.
  - intros (i & Hi & Hx). apply in_flat_map in Hx as ([a b] & Hir & Hx). simpl in Hx.
    destruct (Z.eqb_spec (Ingedient_Id i) a); destruct (Z.eqb_spec b recipeId);
      simpl in Hx; try contradiction.
    destruct Hx as [<-|[]]. subst. auto.
  - intros (Hx & Hir). exists x. split; [exact Hx|]. apply in_flat_map.
    exists (Ingedient_Id x, recipeId). split; [exact Hir|]. simpl.
    rewrite !Z.eqb_refl. simpl. auto.
Qed.

Lemma ingredients_joined_step i ings rows recipeId :
  ingredients_joined (i :: ings) rows recipeId
    = flat_map (fun ir =>
        if (Ingedient_Id i =? fst ir) && (snd ir =? recipeId) then [i] else []) rows
      ++ ingredients_joined ings rows recipeId.
Proof. reflexivity. Qed.

Lemma ingredients_joined_nil ings recipeId : ingredients_joined ings [] recipeId = [].
Proof. induction ings as [|i ings IH]; [reflexivity|]. rewrite ingredients_joined_step, IH. reflexivity. Qed.

Lemma ingredients_joined_cons ings ir rows recipeId :
  length (ingredients_joined ings (ir :: rows) recipeId)
    = (length (ingredients_joined ings [ir] recipeId)
       + length (ingredients_joined ings rows recipeId))%nat.
Proof.
  induction ings as [|i ings IH]; [reflexivity|].
  rewrite !ingredients_joined_step, !length_app, IH. simpl. rewrite !length_app. simpl. lia.
Qed.

Lemma ingredients_joined_other ings a b recipeId :
  b <> recipeId \/ ~ In a (map Ingedient_Id ings) ->
  ingredients_joined ings [(a, b)] recipeId = [].
Proof.
  induction ings as [|i ings IH]; intros H; [reflexivity|].
  rewrite ingredients_joined_step, IH; simpl.
  - destruct (Z.eqb_spec (Ingedient_Id i) a); destruct (Z.eqb_spec b recipeId);
      simpl; try reflexivity.
    destruct H as [H|H]; [contradiction|]. exfalso. apply H. left. assumption.
  - destruct H as [H|H]; [left; exact H|right]. intros Hin. apply H. right. exact Hin.
Qed.

Lemma ingredients_joined_one ings a recipeId :
  NoDup (map Ingedient_Id ings) -> In a (map Ingedient_Id ings) ->
  length (ingredients_joined ings [(a, recipeId)] recipeId) = 1%nat.
Proof.
  induction ings as [|i ings IH]; intros Hnd Hin; [destruct Hin|].
  simpl in Hnd. apply NoDup_cons in Hnd as (Hfresh & Hnd).
  rewrite ingredients_joined_step. simpl. rewrite Z.eqb_refl, andb_true_r, app_nil_r.
  destruct (Z.eqb_spec (Ingedient_Id i) a) as [Heq|Hne].
  - rewrite ingredients_joined_other; [reflexivity|]. right. rewrite <- Heq.
    intros H. apply Hfresh, list_elem_of_In, H.
  - simpl. apply IH; [exact Hnd|]. destruct Hin as [Hin|Hin]; [contradiction|exact Hin].
Qed.

Lemma ingredients_joined_foreign ings rows recipeId :
  Forall (fun ir => snd ir <> recipeId) rows ->
  length (ingredients_joined ings rows recipeId) = 0%nat.
Proof.
  induction 1 as [|[a b] rows Hne _ IH].
  - rewrite ingredients_joined_nil. reflexivity.
  - rewrite ingredients_joined_cons, IH, ingredients_joined_other; [reflexivity|].
    left. exact Hne.
Qed.

Lemma ingredients_joined_own ings recipeId ingredientIds :
  NoDup (map Ingedient_Id ings) ->
  Forall (fun a => In a (map Ingedient_Id ings)) ingredientIds ->
  length (ingredients_joined ings (join_rows recipeId ingredientIds) recipeId)
    = length ingredientIds.
Proof.
  intros Hnd. induction 1 as [|a ids Ha _ IH].
  - simpl. rewrite ingredients_joined_nil. reflexivity.
  - simpl. rewrite ingredients_joined_cons, IH, ingredients_joined_one; auto.
Qed.

Lemma ingredients_joined_app ings rows1 rows2 recipeId :
  length (ingredients_joined ings (rows1 ++ rows2) recipeId)
    = (length (ingredients_joined ings rows1 recipeId)
       + length (ingredients_joined ings rows2 recipeId))%nat.
Proof.
  induction rows1 as [|ir rows1 IH]; simpl.
  - rewrite ingredients_joined_nil. reflexivity.
  - rewrite ingredients_joined_cons, IH, (ingredients_joined_cons ings ir rows1). lia.
Qed.

Lemma filter_id_none (rows : list Recipe) (id : Z) :
  Forall (fun r => Recipe_Id r <> id) rows ->
  filter (fun r => Recipe_Id r = id) rows = [].
Proof.
  induction 1 as [|r rows Hne _ IH]; [reflexivity|].
  rewrite filter_cons_False; auto.
Qed.

Lemma GetRecipeWithIngredients_quiet s recipeId r rest :
  faults s = [] ->
  select_recipe_by_id s recipeId = r :: rest ->
  GetRecipeWithIngredients s recipeId
    = ((Some (mkRecipeWithIngredientsDto r (scan_rows (select_ingredients_of s recipeId))),
        None), s).
Proof.
  intros Hq Hrows. unfold GetRecipeWithIngredients, QueryRow, Query, rows_Err.
  rewrite (driver_quiet s Hq), Hrows. cbv beta iota.
  rewrite (driver_quiet s Hq). cbv beta iota. rewrite (driver_quiet s Hq). reflexivity.
Qed.

Lemma InsertRecipe_fetch_facts (s : Store) (name description longDescription url : string)
    (categoryId : Z) (ingredientIds : list Z) (id : Z) (s1 : Store) :
  wf_store s ->
  InsertRecipe s name description longDescription url categoryId ingredientIds
    = ((id, None), s1) ->
  faults s1 = [] ->
  0 < id /\
  exists ingredients,
    GetRecipeWithIngredients s1 id
      = ((Some (mkRecipeWithIngredientsDto
                  (mkRecipe id name description longDescription url categoryId) ingredients),
          None), s1) /\
    (forall i, i ∈ map Ingedient_Id (elements_of ingredients) <-> i ∈ ingredientIds) /\
    length (elements_of ingredients) = (2 * length ingredientIds)%nat.
Proof.
  intros (Hseq & _ & Hids & _ & _ & Hnd & Hjoin & _) Hins Hq.
  apply InsertRecipe_ok_facts in Hins as (-> & Hrows & Hj & Hing & _ & Hall).
  assert (Hfresh : Forall (fun r => Recipe_Id r <> recipe_id_seq s) (recipe s)).
  { eapply Forall_impl; [exact Hids|]. simpl. intros r Hr. lia. }
  assert (Hforeign : Forall (fun ir => snd ir <> recipe_id_seq s) (ingredient_recipe s)).
  { eapply Forall_impl; [exact Hjoin|]. simpl. intros ir (_ & Hr) Heq.
    unfold has_recipe in Hr. apply existsb_ids, list_elem_of_In, in_map_iff in Hr as (r & Hr & Hin).
    rewrite Forall_forall in Hfresh. apply list_elem_of_In, Hfresh in Hin. congruence. }
  assert (Hknown : Forall (fun a => In a (map Ingedient_Id (ingredient s))) ingredientIds).
  { eapply Forall_impl; [exact Hall|]. simpl. intros a Ha.
    apply list_elem_of_In, existsb_ids. exact Ha. }
  split; [lia|]. eexists. split.
  - apply GetRecipeWithIngredients_quiet with (rest := []); [exact Hq|].
    unfold select_recipe_by_id. rewrite Hrows, filter_app, filter_id_none by exact Hfresh.
    rewrite filter_cons_True by reflexivity. reflexivity.
  - rewrite scan_rows_elements, select_ingredients_of_joined, Hing, Hj. split.
    + intros i. rewrite list_elem_of_In, in_map_iff. split.
      * intros (x & <- & Hx). apply ingredients_joined_In in Hx as (_ & Hx).
        rewrite !in_app_iff in Hx. destruct Hx as [Hx|Hx].
        -- rewrite Forall_forall in Hforeign. apply list_elem_of_In, Hforeign in Hx.
           simpl in Hx. contradiction.
        -- assert (Hx' : In (Ingedient_Id x, recipe_id_seq s)
                            (join_rows (recipe_id_seq s) ingredientIds)) by tauto.
           unfold join_rows in Hx'. apply in_map_iff in Hx' as (a & [= <-] & Ha).
           apply list_elem_of_In, Ha.
      * intros Hi. rewrite Forall_forall in Hknown.
        pose proof (Hknown i Hi) as Hin. apply in_map_iff in Hin as (x & <- & Hx).
        exists x. split; [reflexivity|]. apply ingredients_joined_In. split; [exact Hx|].
        rewrite !in_app_iff. right. left. unfold join_rows. apply in_map_iff.
        exists (Ingedient_Id x). split; [reflexivity|]. apply list_elem_of_In, Hi.
    + rewrite !ingredients_joined_app, ingredients_joined_foreign by exact Hforeign.
      rewrite ingredients_joined_own by assumption. lia.
Qed.

(** X5. Round trip on a store that keeps its integrity and answers without
    fault: a recipe that [InsertRecipe] stored without error is fetched by
    [GetRecipeWithIngredients] under the returned identifier, which is
    positive, with the fields it was given.  The fetched ingredients have
    exactly the listed identifiers, and there are twice as many of them as the
    list is long. *)
Theorem InsertRecipe_then_fetch (s : Store) (name description longDescription url : string)
    (categoryId : Z) (ingredientIds : list Z) (id : Z) (s1 : Store) :
  wf_store s ->
  InsertRecipe s name description longDescription url categoryId ingredientIds
    = ((id, None), s1) ->
  faults s1 = [] ->
  0 < id /\
  exists ingredients,
    GetRecipeWithIngredients s1 id
      = ((Some (mkRecipeWithIngredientsDto
                  (mkRecipe id name description longDescription url categoryId) ingredients),
          None), s1) /\
    (forall i, i ∈ map Ingedient_Id (elements_of ingredients) <-> i ∈ ingredientIds) /\
    length (elements_of ingredients) = (2 * length ingredientIds)%nat.
Proof.
  intros Hwf Hins Hq.
  destruct (InsertRecipe_fetch_facts s name description longDescription url categoryId
              ingredientIds id s1 Hwf Hins Hq) as (Hpos & ingredients & Hget & Hids & Hlen).
  split; [exact Hpos|]. exists ingredients.
  split; [exact Hget|]. split; [exact Hids|exact Hlen].
Qed.

Lemma InsertRecipe_then_fetch_witness :
  wf_store pantry /\
  0 < 1 /\
  exists ingredients,
    GetRecipeWithIngredients
        (snd (InsertRecipe pantry "Cake" "sweet" "very sweet" "cake.png" 1 [1; 2])) 1
      = ((Some (mkRecipeWithIngredientsDto
                  (mkRecipe 1 "Cake" "sweet" "very sweet" "cake.png" 1) ingredients),
          None), snd (InsertRecipe pantry "Cake" "sweet" "very sweet" "cake.png" 1 [1; 2])) /\
    (forall i, i ∈ map Ingedient_Id (elements_of ingredients) <-> i ∈ [1; 2]) /\
    length (elements_of ingredients) = (2 * length [1; 2])%nat.
Proof.
  assert (Hwf : wf_store pantry).
  { apply (bool_decide_unpack (wf_store pantry)). vm_compute. exact I. }
  split; [exact Hwf|].
  apply (InsertRecipe_then_fetch pantry "Cake" "sweet" "very sweet" "cake.png" 1 [1; 2] 1 _
           Hwf eq_refl eq_refl).
Defined.

Lemma GetIngredients_quiet s :
  faults s = [] -> GetIngredients s = ((Some (scan_rows (ingredient s)), None), s).
Proof.
  intros Hq. unfold GetIngredients, Query, rows_Err.
  rewrite (driver_quiet s Hq). cbv beta iota. rewrite (driver_quiet s Hq). reflexivity.
Qed.

(** X6. [InsertIngredient] has no failure of its own: its error is the
    driver's answer.  When there is none, the identifier is the next value of
    the sequence, the ingredient relation gained the row and nothing else
    changed; and [GetIngredients], on a store that answers, then lists the
    rows that were there followed by the new one. *)
Theorem InsertIngredient_then_list (s : Store) (name amount url : string) (isAvailable : bool)
    (id : Z) (err : option error) (s1 : Store) :
  InsertIngredient s name amount url isAvailable = ((id, err), s1) ->
  err = next_fault s /\
  (err <> None -> id = -1 /\ same_data s s1) /\
  (err = None ->
   id = ingredient_id_seq s /\
   ingredient s1 = ingredient s ++ [mkIngedient id name amount url isAvailable] /\
   recipe s1 = recipe s /\ ingredient_recipe s1 = ingredient_recipe s /\
   (faults s1 = [] ->
    exists ingredients,
      GetIngredients s1 = ((Some ingredients, None), s1) /\
      elements_of ingredients
        = ingredient s ++ [mkIngedient id name amount url isAvailable])).
Proof.
  unfold InsertIngredient, insert_ingredient_returning_id, next_fault.
  pose proof (driver_same_data s) as Hsame.
  destruct (driver s) as [[e|] s0]; simpl in *; intros [= <- <- <-].
  - split; [reflexivity|]. split; [auto|discriminate].
  - destruct Hsame as (Hr & Hi & Hj & _ & _ & Hq).
    split; [reflexivity|]. split; [congruence|]. intros _. simpl.
    rewrite Hi, Hr, Hj, Hq. repeat split; try reflexivity.
    intros Hquiet. eexists. split; [apply GetIngredients_quiet, Hquiet|].
    rewrite scan_rows_elements. reflexivity.
Qed.

Lemma InsertIngredient_then_list_witness :
  InsertIngredient pantry "Sugar" "1 cup" "" true
    = ((3, None), snd (InsertIngredient pantry "Sugar" "1 cup" "" true)) /\
  exists ingredients,
    GetIngredients (snd (InsertIngredient pantry "Sugar" "1 cup" "" true))
      = ((Some ingredients, None), snd (InsertIngredient pantry "Sugar" "1 cup" "" true)) /\
    elements_of ingredients = [salt; egg; mkIngedient 3 "Sugar" "1 cup" "" true].
Proof.
  split; [reflexivity|].
  destruct (InsertIngredient_then_list pantry "Sugar" "1 cup" "" true 3 None _ eq_refl)
    as (_ & _ & Hok).
  destruct (Hok eq_refl) as (_ & _ & _ & _ & Hlist).
  exact (Hlist eq_refl).
Defined.

Lemma select_recipes_by_category_In s name r :
  In r (select_recipes_by_category s name) <->
  In r (recipe s) /\
  exists c, In c (category s) /\ category_id c = Recipe_CategoryId r /\ category_name c = name.
Proof.
  unfold select_recipes_by_category. rewrite in_flat_map. split.
  - intros (r0 & Hr0 & Hin). apply in_flat_map in Hin as (c & Hc & Hin).
    destruct (Z.eqb_spec (Recipe_CategoryId r0) (category_id c)) as [Heq|]; simpl in Hin;
      [|contradiction].
    destruct (bool_decide_reflect (category_name c = name)) as [Hname|]; simpl in Hin;
      [|contradiction].
    destruct Hin as [<-|[]]. split; [exact Hr0|]. exists c. auto.
  - intros (Hr & c & Hc & Hid & Hname). exists r. split; [exact Hr|].
    apply in_flat_map. exists c. split; [exact Hc|].
    rewrite <- Hid, Z.eqb_refl, bool_decide_eq_true_2 by exact Hname. simpl. auto.
Qed.

Lemma scan_rows_nil_iff {A : Type} (rows : list A) : scan_rows rows = nil_slice <-> rows = [].
Proof.
  split; [|intros ->; reflexivity].
  destruct rows as [|x rows]; [reflexivity|].
  unfold scan_rows. simpl. rewrite scan_rows_from. discriminate.
Qed.

(** X7. On a store that answers, [GetRecipes] with a category name that is
    not empty returns exactly the recipes whose category identifier belongs to
    a category of that name, and with the empty name every recipe in table
    order.  The result is the nil slice exactly when there is no such row. *)
Theorem GetRecipes_by_category (s : Store) (name : string) :
  faults s = [] ->
  exists recipes,
    GetRecipes s name = ((recipes, None), s) /\
    (recipes = nil_slice <-> elements_of recipes = []) /\
    (name = "" -> elements_of recipes = recipe s) /\
    (name <> "" ->
     forall r, r ∈ elements_of recipes <->
       r ∈ recipe s /\
       exists c, c ∈ category s /\ category_id c = Recipe_CategoryId r /\
                 category_name c = name).
Proof.
  intros Hq. eexists. split; [apply GetRecipes_quiet, Hq|].
  rewrite scan_rows_elements. split; [apply scan_rows_nil_iff|].
  unfold matching_recipes. split.
  - intros ->. reflexivity.
  - intros Hne r. rewrite bool_decide_eq_true_2 by exact Hne.
    rewrite !list_elem_of_In, select_recipes_by_category_In.
    split; intros (Hr & c & Hc & H); (split; [exact Hr|]); exists c;
      [rewrite list_elem_of_In|rewrite <- list_elem_of_In]; auto.
Qed.

Lemma GetRecipes_by_category_witness :
  faults kitchen = [] /\
  exists recipes,
    GetRecipes kitchen "Starter" = ((recipes, None), kitchen) /\
    (forall r, r ∈ elements_of recipes <->
       r ∈ recipe kitchen /\
       exists c, c ∈ category kitchen /\ category_id c = Recipe_CategoryId r /\
                 category_name c = "Starter").
Proof.
  split; [reflexivity|].
  destruct (GetRecipes_by_category kitchen "Starter" eq_refl) as (recipes & Hget & _ & _ & Hin).
  exists recipes. split; [exact Hget|]. apply Hin. discriminate.
Defined.

(** ** An update seen through a fetch *)

Lemma filter_update_rows id name description url recipeId rows :
  filter (fun r => Recipe_Id r = recipeId) (map (update_row id name description url) rows)
    = map (update_row id name description url) (filter (fun r => Recipe_Id r = recipeId) rows).
Proof.
  induction rows as [|r rows IH]; [reflexivity|]. simpl.
  destruct (update_row_kept id name description url r) as (Hid & _).
  destruct (decide (Recipe_Id r = recipeId)) as [Heq|Hne].
  - rewrite !filter_cons_True by congruence. simpl. rewrite IH. reflexivity.
  - rewrite !filter_cons_False by congruence. exact IH.
Qed.

(** X8. On a store that answers, updating a recipe that
    [GetRecipeWithIngredients] finds and fetching it again gives the new name,
    description and image URL with the long description, the category and
    the ingredients of before. *)
Theorem UpdateRecipe_then_fetch (s : Store) (id : Z) (name description url : string)
    (r : Recipe) (ingredients : slice Ingedient) :
  faults s = [] ->
  GetRecipeWithIngredients s id
    = ((Some (mkRecipeWithIngredientsDto r ingredients), None), s) ->
  exists s1,
    UpdateRecipe s id name description url = (None, s1) /\
    GetRecipeWithIngredients s1 id
      = ((Some (mkRecipeWithIngredientsDto
                  (mkRecipe id name description (Recipe_LongDescription r) url
                            (Recipe_CategoryId r))
                  ingredients), None), s1).
Proof.
  intros Hq Hget.
  destruct (select_recipe_by_id s id) as [|r0 rest] eqn:Hrows.
  { revert Hget. unfold GetRecipeWithIngredients, QueryRow.
    rewrite (driver_quiet s Hq), Hrows. discriminate. }
  rewrite (GetRecipeWithIngredients_quiet s id r0 rest Hq Hrows) in Hget.
  injection Hget as -> <-.
  assert (Hid : Recipe_Id r = id).
  { assert (Hin : r ∈ select_recipe_by_id s id) by (rewrite Hrows; left).
    unfold select_recipe_by_id in Hin. apply list_elem_of_filter in Hin as (Hid & _). exact Hid. }
  eexists. split.
  - unfold UpdateRecipe, update_recipe. rewrite (driver_quiet s Hq). reflexivity.
  - erewrite GetRecipeWithIngredients_quiet.
    + rewrite <- (update_row_hit id name description url r Hid). reflexivity.
    + exact Hq.
    + unfold select_recipe_by_id in *. simpl. rewrite filter_update_rows, Hrows. reflexivity.
Qed.

Lemma UpdateRecipe_then_fetch_witness :
  faults kitchen = [] /\
  exists s1,
    UpdateRecipe kitchen 1 "Stew" "warm" "stew.png" = (None, s1) /\
    GetRecipeWithIngredients s1 1
      = ((Some (mkRecipeWithIngredientsDto
                  (mkRecipe 1 "Stew" "warm" "very hot" "stew.png" 2) (Slice [salt])), None), s1).
Proof.
  split; [reflexivity|].
  apply (UpdateRecipe_then_fetch kitchen 1 "Stew" "warm" "stew.png"
           (mkRecipe 1 "Soup" "hot" "very hot" "soup.png" 2) (Slice [salt]) eq_refl eq_refl).
Defined.

(** ** Identifiers in decimal *)

Lemma pretty_N_char_digit d :
  (d < 10)%N -> is_digit (pretty_N_char d) = true /\ digit_value (pretty_N_char d) = Z.of_N d.
Proof.
  intros Hd.
  assert (H : (d = 0 \/ d = 1 \/ d = 2 \/ d = 3 \/ d = 4 \/ d = 5 \/ d = 6 \/ d = 7
               \/ d = 8 \/ d = 9)%N) by lia.
  destruct H as [->|[->|[->|[->|[->|[->|[->|[->|[->| ->]]]]]]]]]; split; reflexivity.
Qed.

Lemma parse_digits_pretty_N_go x :
  exists k : Z, 0 <= k /\ forall s acc,
    parse_digits (pretty_N_go x s) acc = parse_digits s (acc * 10 ^ k + Z.of_N x).
Proof.
  induction (N.lt_wf_0 x) as [x _ IH].
  destruct (decide (x = 0)%N) as [->|Hpos].
  - exists 0. split; [lia|]. intros s acc. rewrite pretty_N_go_0. f_equal. lia.
  - assert (Hlt : (x `div` 10 < x)%N) by (apply N.div_lt; lia).
    destruct (IH _ Hlt) as (k & Hk & Hgo).
    exists (k + 1). split; [lia|]. intros s acc.
    rewrite pretty_N_go_step by lia. rewrite Hgo. simpl.
    destruct (pretty_N_char_digit (x `mod` 10)%N) as (-> & ->).
    { apply N.mod_lt. lia. }
    f_equal. rewrite Z.pow_add_r by lia.
    rewrite (N.div_mod x 10) at 3 by lia.
    rewrite N2Z.inj_add, N2Z.inj_mul. change (Z.of_N 10) with 10. lia.
Qed.

Lemma parse_digits_pretty_pos (p : positive) : parse_digits (pretty p) 0 = Some (Z.pos p).
Proof.
  unfold pretty, pretty_positive, pretty, pretty_N.
  destruct (decide (N.pos p = 0)%N); [discriminate|].
  destruct (parse_digits_pretty_N_go (N.pos p)) as (k & _ & ->). reflexivity.
Qed.

Lemma Atoi_digits c rest :
  is_digit c = true ->
  Atoi (String c rest) =
    match parse_digits (String c rest) 0 with
    | None => inr (NumError "Atoi" (String c rest) ErrSyntax)
    | Some n => if (minInt <=? n) && (n <=? maxInt) then inl n
                else inr (NumError "Atoi" (String c rest) ErrRange)
    end.
Proof.
  destruct c as [[] [] [] [] [] [] [] []]; try discriminate; intros _; reflexivity.
Qed.

(** The decimal text of an [int] reads back as that [int]. *)
Lemma Atoi_Itoa (z : Z) : minInt <= z <= maxInt -> Atoi (Itoa z) = inl z.
Proof.
  intros Hrange. unfold Itoa, pretty, pretty_Z. destruct z as [|p|p].
  - reflexivity.
  - pose proof (parse_digits_pretty_pos p) as Hp.
    destruct (pretty p) as [|c rest] eqn:Hs; [discriminate|].
    assert (Hc : is_digit c = true).
    { simpl in Hp. destruct (is_digit c); [reflexivity|discriminate]. }
    rewrite Atoi_digits, Hp by exact Hc.
    destruct (Z.leb_spec minInt (Z.pos p)); destruct (Z.leb_spec (Z.pos p) maxInt);
      simpl; try reflexivity; lia.
  - pose proof (parse_digits_pretty_pos p) as Hp.
    destruct (pretty p) as [|c rest] eqn:Hs; [discriminate|].
    change ("-" +:+ String c rest) with (String "-" (String c rest)).
    unfold Atoi. rewrite Hp.
    destruct (Z.leb_spec minInt (- Z.pos p)); destruct (Z.leb_spec (- Z.pos p) maxInt);
      simpl; try reflexivity; lia.
Qed.

(** ** When InsertRecipe succeeds *)

Lemma InsertRecipeIngredient_quiet_ok ingredientIds : forall s recipeId,
  faults s = [] -> has_recipe s recipeId = true ->
  Forall (fun i => has_ingredient s i = true) ingredientIds ->
  exists s1, InsertRecipeIngredient s recipeId ingredientIds = (None, s1) /\ faults s1 = [].
Proof.
  induction ingredientIds as [|i rest IH]; intros s recipeId Hq Hrec Hall; simpl.
  - exists s. auto.
  - apply Forall_cons in Hall as (Hi & Hall).
    unfold insert_ingredient_recipe, join_row_accepted. rewrite (driver_quiet s Hq), Hi, Hrec.
    simpl. apply IH; auto.
Qed.

Lemma InsertRecipe_quiet_ok s name description longDescription url categoryId ingredientIds :
  faults s = [] -> has_category s categoryId = true ->
  Forall (fun i => has_ingredient s i = true) ingredientIds ->
  exists s1,
    InsertRecipe s name description longDescription url categoryId ingredientIds
      = ((recipe_id_seq s, None), s1) /\ faults s1 = [].
Proof.
  intros Hq Hcat Hall. rewrite InsertRecipe_two_passes.
  unfold insert_recipe_returning_id, recipe_row_accepted. rewrite (driver_quiet s Hq), Hcat.
  cbv zeta.
  edestruct (InsertRecipeIngredient_quiet_ok (ingredientIds ++ ingredientIds)) as (s1 & -> & Hq1).
  - exact Hq.
  - unfold has_recipe. simpl.
    apply (has_recipe_last (recipe s)
             (mkRecipe (recipe_id_seq s) name description longDescription url categoryId)).
  - apply Forall_app. split; exact Hall.
  - exists s1. auto.
Qed.

(** X9. On a store that answers, [InsertRecipe] returns no error exactly
    when the category exists and every listed ingredient exists; the
    identifier is then the next value of the sequence. *)
Theorem InsertRecipe_succeeds_iff (s : Store) (name description longDescription url : string)
    (categoryId : Z) (ingredientIds : list Z) :
  faults s = [] ->
  (snd (fst (InsertRecipe s name description longDescription url categoryId ingredientIds))
     = None <->
   has_category s categoryId = true /\
   Forall (fun i => has_ingredient s i = true) ingredientIds) /\
  (snd (fst (InsertRecipe s name description longDescription url categoryId ingredientIds))
     = None ->
   fst (fst (InsertRecipe s name description longDescription url categoryId ingredientIds))
     = recipe_id_seq s).
Proof.
  intros Hq. split; [split|].
  - destruct (InsertRecipe s name description longDescription url categoryId ingredientIds)
      as [[id err] s1] eqn:Hins. simpl. intros ->.
    apply InsertRecipe_ok_facts in Hins. tauto.
  - intros (Hcat & Hall).
    destruct (InsertRecipe_quiet_ok s name description longDescription url categoryId
                ingredientIds Hq Hcat Hall) as (s1 & -> & _). reflexivity.
  - destruct (InsertRecipe s name description longDescription url categoryId ingredientIds)
      as [[id err] s1] eqn:Hins. simpl. intros ->.
    apply InsertRecipe_ok_facts in Hins. tauto.
Qed.

Lemma InsertRecipe_succeeds_iff_witness :
  faults pantry = [] /\
  snd (fst (InsertRecipe pantry "Cake" "sweet" "very sweet" "cake.png" 1 [1; 2])) = None /\
  snd (fst (InsertRecipe pantry "Cake" "sweet" "very sweet" "cake.png" 1 [1; 9])) <> None.
Proof.
  split; [reflexivity|]. split.
  - apply (InsertRecipe_succeeds_iff pantry "Cake" "sweet" "very sweet" "cake.png" 1 [1; 2] eq_refl).
    split; [reflexivity|]. repeat constructor.
  - intros H.
    apply (InsertRecipe_succeeds_iff pantry "Cake" "sweet" "very sweet" "cake.png" 1 [1; 9] eq_refl)
      in H as (_ & Hall).
    apply Forall_cons in Hall as (_ & Hall). apply Forall_cons in Hall as (H9 & _).
    discriminate H9.
Defined.

(** ** Health *)

Section HealthReport.

Variable Error : error -> string.
Variable Duration_String : Z -> string.
Variable json_Marshal_map : gmap string string -> string * option error.

(** X10. What [Health] reports.  After a ping that succeeded the map has the
    nine keys of the status, the message and the pool counters and no other,
    and the message is that of the last check that holds: closed for
    lifetime, closed for idling, wait count, open connections, else healthy.
    After a ping that failed the map held the status down and the error text
    when the process was ended. *)
Theorem Health_report (s : Store) :
  match PingContext s Health_timeout with
  | (None, s1) =>
      exists m,
        Health Error Duration_String s = (Health_returns m, s1) /\
        m !! "message" = Some (Health_message (stats s1)) /\
        dom m = list_to_set ["status"; "message"; "open_connections"; "in_use"; "idle";
                             "wait_count"; "wait_duration"; "max_idle_closed";
                             "max_lifetime_closed"]
  | (Some err, s1) =>
      Health Error Duration_String s
        = (Health_exits ("db down: " +:+ Error err)
             (<["error" := "db down: " +:+ Error err]> (<["status" := "down"]> ∅)), s1)
  end.
Proof.
  unfold Health. destruct (PingContext s Health_timeout) as [[err|] s1]; [reflexivity|].
  eexists. split; [reflexivity|]. unfold Health_message. split.
  - repeat case_match; simplify_map_eq; reflexivity.
  - repeat case_match; rewrite !dom_insert_L, dom_empty_L; set_solver.
Qed.

(** X11. GET /health never answers that the store is down.  When the
    handler responds, it wrote once, the encoding of a map whose status is up;
    when the ping fails, the process ends in [Health] and nothing is
    written. *)
Theorem healthHandler_answers (s : Store) (r : Request) :
  match PingContext s Health_timeout with
  | (None, s1) =>
      exists m,
        healthHandler Error Duration_String json_Marshal_map s r
          = Responds (mkHandled [Write (fst (json_Marshal_map m))] Returned s1) /\
        m !! "status" = Some "up"
  | (Some err, s1) =>
      healthHandler Error Duration_String json_Marshal_map s r
        = Exits ("db down: " +:+ Error err)
  end.
Proof.
  unfold healthHandler, Health.
  destruct (PingContext s Health_timeout) as [[err|] s1]; [reflexivity|].
  eexists. split.
  - destruct (json_Marshal_map _) as [jsonResp merr] eqn:Hm. rewrite Hm. reflexivity.
  - repeat case_match; simplify_map_eq; reflexivity.
Qed.

End HealthReport.

(** ** More on the handlers *)

Lemma append_nil_r (x : string) : x +:+ "" = x.
Proof.
  induction x as [|c x IH]; [reflexivity|].
  change (String c (x +:+ "") = String c x). rewrite IH. reflexivity.
Qed.

Lemma append_assoc (x y z : string) : (x +:+ y) +:+ z = x +:+ (y +:+ z).
Proof.
  induction x as [|c x IH]; [reflexivity|].
  change (String c ((x +:+ y) +:+ z) = String c (x +:+ (y +:+ z))). rewrite IH. reflexivity.
Qed.

Section HandlerAnswers.

Variable Error : error -> string.
Variable json_readValue : Reader -> string + error.
Variable json_unmarshal_RecipeInputDto : string -> RecipeInputDto -> RecipeInputDto * option error.
Variable json_unmarshal_Ingedient : string -> Ingedient -> Ingedient * option error.
Variable json_Unmarshal_map : string -> gmap string any + error.
Variable json_Marshal_Recipe : Recipe -> string.
Variable json_Marshal_RecipeWithIngredientsDto : RecipeWithIngredientsDto -> string.

(** X12. [getRecipesHandler] panics in one situation only: the body was read,
    is not empty and decodes to a map whose [category] is missing or is not a
    string.  In every other case it returns. *)
Theorem getRecipesHandler_panics_iff (s : Store) (r : Request) :
  outcome (getRecipesHandler Error json_Unmarshal_map json_Marshal_Recipe s r) = Panicked <->
  reader_err (Body r) = None /\
  (0 < String.length (reader_data (Body r)))%nat /\
  exists data,
    json_Unmarshal_map (reader_data (Body r)) = inl data /\
    forall name, data !! "category" <> Some (any_string name).
Proof.
  unfold getRecipesHandler, io_ReadAll.
  destruct (reader_err (Body r)) as [e|]; simpl.
  { split; [discriminate|]. intros (H & _). discriminate. }
  destruct (bool_decide_reflect (0 < String.length (reader_data (Body r)))%nat) as [Hlen|Hlen].
  - destruct (json_Unmarshal_map (reader_data (Body r))) as [data|e] eqn:Hdata; simpl.
    + unfold map_index.
      destruct (data !! "category") as [v|] eqn:Hv; simpl.
      * destruct v; simpl;
          try (split; [intros _; repeat split; auto; exists data; split; auto;
                       intros name; rewrite Hv; discriminate
                      |reflexivity]).
        destruct (GetRecipes s s0) as [[recipes [e|]] s1]; simpl;
          (split; [discriminate|]);
          intros (_ & _ & data' & [= <-] & Hno); exfalso; eapply Hno; exact Hv.
      * split; [|reflexivity]. intros _. repeat split; auto. exists data. split; auto.
        intros name. rewrite Hv. discriminate.
    + split; [discriminate|]. intros (_ & _ & data & Habs & _). discriminate.
  - destruct (GetRecipes s "") as [[recipes [e|]] s1]; simpl;
      (split; [discriminate|]); intros (_ & Habs & _); contradiction.
Qed.

(** X13. The two read handlers change no row of the store, call the service
    at most once, and answer 200 or 400 and nothing else;
    [getRecipeWithIngredients] always returns, and [getRecipesHandler] has
    written nothing when it panics. *)
Theorem read_handlers_answer (s : Store) (r : Request) :
  (same_data s (db (getRecipesHandler Error json_Unmarshal_map json_Marshal_Recipe s r)) /\
   (length (List.filter is_db_call
      (events (getRecipesHandler Error json_Unmarshal_map json_Marshal_Recipe s r))) <= 1)%nat /\
   (getRecipesHandler Error json_Unmarshal_map json_Marshal_Recipe s r
      = mkHandled [] Panicked s \/
    outcome (getRecipesHandler Error json_Unmarshal_map json_Marshal_Recipe s r) = Returned /\
    (status_written
       (events (getRecipesHandler Error json_Unmarshal_map json_Marshal_Recipe s r))
       = Some 200 \/
     status_written
       (events (getRecipesHandler Error json_Unmarshal_map json_Marshal_Recipe s r))
       = Some 400))) /\
  (same_data s (db (getRecipeWithIngredients Error json_Marshal_RecipeWithIngredientsDto s r)) /\
   (length (List.filter is_db_call
      (events (getRecipeWithIngredients Error json_Marshal_RecipeWithIngredientsDto s r)))
    <= 1)%nat /\
   outcome (getRecipeWithIngredients Error json_Marshal_RecipeWithIngredientsDto s r)
     = Returned /\
   (status_written
      (events (getRecipeWithIngredients Error json_Marshal_RecipeWithIngredientsDto s r))
      = Some 200 \/
    status_written
      (events (getRecipeWithIngredients Error json_Marshal_RecipeWithIngredientsDto s r))
      = Some 400)).
Proof.
  split.
  - unfold getRecipesHandler.
    destruct (io_ReadAll (Body r)) as [body [e|]].
    { simpl. split; [apply same_data_refl|]. split; [lia|]. right. auto. }
    assert (Hcall : forall name,
      let h := (let '(recipes, err, s1) := GetRecipes s name in
                match err with
                | Some err =>
                    mkHandled ([Db (Call_GetRecipes name)]
                               ++ [http_Error (Error err) StatusBadRequest]) Returned s1
                | None =>
                    mkHandled ([Db (Call_GetRecipes name)]
                               ++ [Header_Set "Content-Type" "application/json";
                                   WriteHeader StatusOK;
                                   Encode (Marshal_slice json_Marshal_Recipe recipes)])
                              Returned s1
                end) in
      same_data s (db h) /\ (length (List.filter is_db_call (events h)) <= 1)%nat /\
      (h = mkHandled [] Panicked s \/
       outcome h = Returned /\
       (status_written (events h) = Some 200 \/ status_written (events h) = Some 400))).
    { intros name. pose proof (GetRecipes_same_data s name) as Hsame.
      destruct (GetRecipes s name) as [[recipes [e|]] s1]; simpl in *;
        (split; [exact Hsame|]); (split; [lia|]); right; auto. }
    destruct (bool_decide (0 < String.length body)%nat).
    + destruct (json_Unmarshal_map body) as [data|e].
      * destruct (assert_string (map_index data "category")) as [name|].
        -- apply Hcall.
        -- simpl. split; [apply same_data_refl|]. split; [lia|]. left. reflexivity.
      * simpl. split; [apply same_data_refl|]. split; [lia|]. right. auto.
    + apply Hcall.
  - unfold getRecipeWithIngredients.
    destruct (Atoi (PathValue r "recipeId")) as [recipeId|e].
    + pose proof (GetRecipeWithIngredients_same_data s recipeId) as Hsame.
      destruct (GetRecipeWithIngredients s recipeId) as [[[dto|] [e|]] s1]; simpl in *;
        (split; [exact Hsame|]); (split; [lia|]); auto.
    + simpl. split; [apply same_data_refl|]. split; [lia|]. auto.
Qed.

(** X14. What a POST handler answers, whatever the body.  The status is 400
    when the body did not decode, else 500 when the insert failed, else 201.
    The body is the text of each error on a line of its own, followed in
    every case by the identifier line, which carries -1 when the first
    statement of the insert failed.  The store is left as the insert left
    it. *)
Theorem insert_handlers_answer (s : Store) (r : Request)
    (recipeDto : RecipeInputDto) (derr : option error)
    (id : Z) (ierr : option error) (s1 : Store)
    (ingredient : Ingedient) (derr' : option error)
    (id' : Z) (ierr' : option error) (s1' : Store) :
  Decode_RecipeInputDto json_readValue json_unmarshal_RecipeInputDto (Body r) zero_RecipeInputDto
    = (recipeDto, derr) ->
  InsertRecipe s (RecipeInputDto_Name recipeDto) (RecipeInputDto_Description recipeDto)
               (RecipeInputDto_LongDescription recipeDto) (RecipeInputDto_Url recipeDto)
               (RecipeInputDto_CategoryId recipeDto) (RecipeInputDto_IngedientIds recipeDto)
    = ((id, ierr), s1) ->
  Decode_Ingedient json_readValue json_unmarshal_Ingedient (Body r) zero_Ingedient
    = (ingredient, derr') ->
  InsertIngredient s (Ingedient_Name ingredient) (Ingedient_Amount ingredient)
                   (Ingedient_Url ingredient) (Ingedient_IsAvailable ingredient)
    = ((id', ierr'), s1') ->
  (db (insertRecipeHandler Error json_readValue json_unmarshal_RecipeInputDto s r) = s1 /\
   status_written
     (events (insertRecipeHandler Error json_readValue json_unmarshal_RecipeInputDto s r))
     = Some (match derr, ierr with
             | Some _, _ => 400
             | None, Some _ => 500
             | None, None => 201
             end) /\
   body_written
     (events (insertRecipeHandler Error json_readValue json_unmarshal_RecipeInputDto s r))
     = match derr with Some e => Error e +:+ newline | None => "" end
       +:+ match ierr with Some e => Error e +:+ newline | None => "" end
       +:+ "Recipe id: " +:+ Itoa id) /\
  (db (insertIngredientHandler Error json_readValue json_unmarshal_Ingedient s r) = s1' /\
   status_written
     (events (insertIngredientHandler Error json_readValue json_unmarshal_Ingedient s r))
     = Some (match derr', ierr' with
             | Some _, _ => 400
             | None, Some _ => 500
             | None, None => 201
             end) /\
   body_written
     (events (insertIngredientHandler Error json_readValue json_unmarshal_Ingedient s r))
     = match derr' with Some e => Error e +:+ newline | None => "" end
       +:+ match ierr' with Some e => Error e +:+ newline | None => "" end
       +:+ "Ingredient id: " +:+ Itoa id').
Proof.
  intros Hdec Hins Hdec' Hins'. split.
  - unfold insertRecipeHandler. rewrite Hdec. cbv beta iota zeta. simpl Recipe_Name.
    simpl Recipe_Description. simpl Recipe_LongDescription. simpl Recipe_Url.
    simpl Recipe_CategoryId. rewrite Hins.
    destruct derr, ierr; simpl; rewrite ?append_assoc, ?append_nil_r; auto.
  - unfold insertIngredientHandler. rewrite Hdec'. cbv beta iota zeta. rewrite Hins'.
    destruct derr', ierr'; simpl; rewrite ?append_assoc, ?append_nil_r; auto.
Qed.

(** X15. From POST /recipe to GET /recipe/{recipeId}, on a store that keeps
    its integrity and answers.  A body that decodes to a recipe whose category
    and ingredients exist is answered 201 with the line of the new identifier;
    a GET whose path segment is that number in decimal is then answered 200
    with the encoding of the recipe as posted, its ingredients being exactly
    the posted identifiers, each as often again as it was listed. *)
Theorem post_then_get (s : Store) (r1 r2 : Request) (recipeDto : RecipeInputDto) :
  wf_store s ->
  faults s = [] ->
  recipe_id_seq s <= maxInt ->
  Decode_RecipeInputDto json_readValue json_unmarshal_RecipeInputDto (Body r1) zero_RecipeInputDto
    = (recipeDto, None) ->
  has_category s (RecipeInputDto_CategoryId recipeDto) = true ->
  Forall (fun i => has_ingredient s i = true) (RecipeInputDto_IngedientIds recipeDto) ->
  PathValue r2 "recipeId" = Itoa (recipe_id_seq s) ->
  events (insertRecipeHandler Error json_readValue json_unmarshal_RecipeInputDto s r1)
    = [Db (Call_InsertRecipe (RecipeInputDto_Name recipeDto)
             (RecipeInputDto_Description recipeDto) (RecipeInputDto_LongDescription recipeDto)
             (RecipeInputDto_Url recipeDto) (RecipeInputDto_CategoryId recipeDto)
             (RecipeInputDto_IngedientIds recipeDto));
       WriteHeader StatusCreated;
       Write ("Recipe id: " +:+ Itoa (recipe_id_seq s))] /\
  exists ingredients,
    events (getRecipeWithIngredients Error json_Marshal_RecipeWithIngredientsDto
              (db (insertRecipeHandler Error json_readValue json_unmarshal_RecipeInputDto s r1))
              r2)
      = [Db (Call_GetRecipeWithIngredients (recipe_id_seq s));
         Header_Set "Content-Type" "application/json";
         WriteHeader StatusOK;
         Encode (json_Marshal_RecipeWithIngredientsDto
                   (mkRecipeWithIngredientsDto
                      (mkRecipe (recipe_id_seq s) (RecipeInputDto_Name recipeDto)
                         (RecipeInputDto_Description recipeDto)
                         (RecipeInputDto_LongDescription recipeDto)
                         (RecipeInputDto_Url recipeDto)
                         (RecipeInputDto_CategoryId recipeDto))
                      ingredients))] /\
    (forall i, i ∈ map Ingedient_Id (elements_of ingredients)
               <-> i ∈ RecipeInputDto_IngedientIds recipeDto) /\
    length (elements_of ingredients)
      = (2 * length (RecipeInputDto_IngedientIds recipeDto))%nat.
Proof.
  intros Hwf Hq Hmax Hdec Hcat Hall Hpath.
  destruct (InsertRecipe_quiet_ok s (RecipeInputDto_Name recipeDto)
              (RecipeInputDto_Description recipeDto) (RecipeInputDto_LongDescription recipeDto)
              (RecipeInputDto_Url recipeDto) (RecipeInputDto_CategoryId recipeDto)
              (RecipeInputDto_IngedientIds recipeDto) Hq Hcat Hall) as (s1 & Hins & Hq1).
  destruct (InsertRecipe_fetch_facts _ _ _ _ _ _ _ _ _ Hwf Hins Hq1)
    as (Hpos & ingredients & Hget & Hids & Hlen).
  unfold insertRecipeHandler. rewrite Hdec. cbv beta iota zeta. simpl Recipe_Name.
  simpl Recipe_Description. simpl Recipe_LongDescription. simpl Recipe_Url.
  simpl Recipe_CategoryId. rewrite Hins. simpl.
  split; [reflexivity|]. exists ingredients.
  unfold getRecipeWithIngredients. rewrite Hpath, Atoi_Itoa, Hget.
  - simpl. auto.
  - unfold minInt. split; [|exact Hmax]. lia.
Qed.

End HandlerAnswers.

Lemma insert_handlers_answer_witness :
  status_written
    (events (insertRecipeHandler sample_Error sample_readValue sample_unmarshal_cake
               pantry_offline (request cake_body ""))) = Some 500 /\
  body_written
    (events (insertRecipeHandler sample_Error sample_readValue sample_unmarshal_cake
               pantry_offline (request cake_body "")))
    = "connection refused" +:+ newline +:+ "Recipe id: -1" /\
  body_written
    (events (insertIngredientHandler sample_Error sample_readValue sample_unmarshal_sugar
               pantry_offline (request cake_body "")))
    = "connection refused" +:+ newline +:+ "Ingredient id: -1".
Proof.
  destruct (insert_handlers_answer sample_Error sample_readValue sample_unmarshal_cake
              sample_unmarshal_sugar pantry_offline (request cake_body "")
              cake_dto None (-1) (Some (ErrDriver "connection refused")) pantry
              sugar None (-1) (Some (ErrDriver "connection refused")) pantry
              eq_refl eq_refl eq_refl eq_refl)
    as ((_ & Hstatus & Hbody) & (_ & _ & Hbody')).
  split; [exact Hstatus|]. split; [exact Hbody|exact Hbody'].
Defined.

Lemma post_then_get_witness :
  wf_store pantry /\
  events (insertRecipeHandler sample_Error sample_readValue sample_unmarshal_cake
            pantry (request cake_body ""))
    = [Db (Call_InsertRecipe "Cake" "sweet" "very sweet" "cake.png" 1 [1; 2]);
       WriteHeader 201; Write "Recipe id: 1"] /\
  exists ingredients : slice Ingedient,
    events (getRecipeWithIngredients sample_Error (fun _ => "{}")
              (db (insertRecipeHandler sample_Error sample_readValue sample_unmarshal_cake
                     pantry (request cake_body "")))
              (request "" "1"))
      = [Db (Call_GetRecipeWithIngredients 1);
         Header_Set "Content-Type" "application/json";
         WriteHeader 200;
         Write ("{}" +:+ newline)] /\
    length (elements_of ingredients) = 4%nat.
Proof.
  assert (Hwf : wf_store pantry).
  { apply (bool_decide_unpack (wf_store pantry)). vm_compute. exact I. }
  split; [exact Hwf|].
  destruct (post_then_get sample_Error sample_readValue sample_unmarshal_cake (fun _ => "{}")
              pantry (request cake_body "") (request "" "1") cake_dto
              Hwf eq_refl) as (Hpost & ingredients & Hget & _ & Hlen).
  - vm_compute. discriminate.
  - reflexivity.
  - reflexivity.
  - repeat constructor.
  - reflexivity.
  - split; [exact Hpost|]. exists ingredients. split; [exact Hget|exact Hlen].
Defined.

(** ** Updates compose *)

Lemma update_row_twice id name1 description1 url1 name2 description2 url2 r :
  update_row id name2 description2 url2 (update_row id name1 description1 url1 r)
    = update_row id name2 description2 url2 r.
Proof.
  unfold update_row. destruct (Z.eqb_spec (Recipe_Id r) id) as [Heq|Hne]; simpl.
  - rewrite Heq, Z.eqb_refl. reflexivity.
  - destruct (Z.eqb_spec (Recipe_Id r) id); [contradiction|reflexivity].
Qed.

(** X16. On a store that answers, the last update of a recipe wins: two
    calls of [UpdateRecipe] on one identifier leave the store as the second
    call alone would, so that repeating an update changes nothing more. *)
Theorem UpdateRecipe_last_wins (s : Store) (id : Z)
    (name1 description1 url1 name2 description2 url2 : string) :
  faults s = [] ->
  exists s1 s2,
    UpdateRecipe s id name1 description1 url1 = (None, s1) /\
    UpdateRecipe s1 id name2 description2 url2 = (None, s2) /\
    UpdateRecipe s id name2 description2 url2 = (None, s2).
Proof.
  intros Hq. unfold UpdateRecipe, update_recipe. rewrite (driver_quiet s Hq).
  eexists. eexists. split; [reflexivity|].
  unfold driver. simpl. rewrite Hq. split; [reflexivity|].
  unfold with_recipe. simpl. rewrite map_map.
  erewrite map_ext; [reflexivity|]. intros r. simpl. symmetry. apply update_row_twice.
Qed.

Lemma UpdateRecipe_last_wins_witness :
  faults kitchen = [] /\
  exists s1 s2,
    UpdateRecipe kitchen 1 "Broth" "thin" "broth.png" = (None, s1) /\
    UpdateRecipe s1 1 "Stew" "warm" "stew.png" = (None, s2) /\
    UpdateRecipe kitchen 1 "Stew" "warm" "stew.png" = (None, s2).
Proof.
  split; [reflexivity|].
  apply (UpdateRecipe_last_wins kitchen 1 "Broth" "thin" "broth.png" "Stew" "warm" "stew.png"
           eq_refl).
Defined.

(** ** A recipe that is not there *)

Section NotFound.

Variable Error : error -> string.
Variable json_Marshal_RecipeWithIngredientsDto : RecipeWithIngredientsDto -> string.

(** X17. GET /recipe/{recipeId} for an identifier that parses and that no
    recipe has is answered like a bad request, on a store that answers:
    status 400 with the text of [sql.ErrNoRows], after one call of the
    service that found nothing; the store is unchanged. *)
Theorem getRecipeWithIngredients_not_found_400 (s : Store) (r : Request) (recipeId : Z) :
  faults s = [] ->
  Atoi (PathValue r "recipeId") = inl recipeId ->
  (forall x, x ∈ recipe s -> Recipe_Id x <> recipeId) ->
  getRecipeWithIngredients Error json_Marshal_RecipeWithIngredientsDto s r
    = mkHandled [Db (Call_GetRecipeWithIngredients recipeId);
                 http_Error (Error ErrNoRows) StatusBadRequest] Returned s /\
  status_written
    (events (getRecipeWithIngredients Error json_Marshal_RecipeWithIngredientsDto s r))
    = Some 400.
Proof.
  intros Hq Hid Hnone. unfold getRecipeWithIngredients, GetRecipeWithIngredients, QueryRow.
  rewrite Hid, (driver_quiet s Hq), (select_recipe_by_id_none s recipeId Hnone).
  split; reflexivity.
Qed.

End NotFound.

Lemma getRecipeWithIngredients_not_found_400_witness :
  Atoi "7" = inl 7 /\
  getRecipeWithIngredients sample_Error (fun _ => "{}") kitchen (request "" "7")
    = mkHandled [Db (Call_GetRecipeWithIngredients 7);
                 http_Error "sql: no rows in result set" 400] Returned kitchen.
Proof.
  split; [reflexivity|].
  apply (getRecipeWithIngredients_not_found_400 sample_Error (fun _ => "{}") kitchen
           (request "" "7") 7 eq_refl eq_refl).
  intros x Hx. apply list_elem_of_singleton in Hx. subst x. simpl. lia.
Defined.
